(** * luaqrcode: the Python glue around the Lua QR encoder

    A shallow embedding of [matrix_to_image.py] (matrix source and
    rasterizer) and [qr_decoder.py] (batch decoder), and the properties
    of the specification that concern them.

    Conventions of the embedding.
    - A Python [str] is a [string]; a character stands for the code
      point of the same number (0..255).
    - A Python [int] is a [Z]; a list is a [list]; [None]-or-value is an
      [option].
    - Effects (printing, the file system, exceptions) are threaded
      through the monad [Py]: a computation maps a [World] to the
      resulting [World] and an [outcome], which is a returned value or a
      raised exception.  What a computation printed or wrote before it
      raised stays in the world.
    - Writing a text file is two steps, the opening and the writing:
      the opening creates or empties the file, or is refused and changes
      nothing; the writing stores the text, or fails and leaves in the
      file what had been written.  Removing a file can be refused. *)

From Stdlib Require Import Ascii.
From stdpp Require Import base numbers list strings pretty gmap.

Local Open Scope Z_scope.

(** ** Exceptions and outcomes *)

(** An exception: its class name and its message ([str(e)]). *)
Inductive exn : Type :=
  | Exn (cls : string) (msg : string).

Definition exn_msg (e : exn) : string :=
  match e with Exn _ msg => msg end.

Inductive outcome (A : Type) : Type :=
  | Returned (a : A)
  | Raised (e : exn).
Arguments Returned {A} a.
Arguments Raised {A} e.

#[global] Instance outcome_ret : MRet outcome := λ A a, Returned a.
#[global] Instance outcome_bind : MBind outcome := λ A B f m,
  match m with
  | Returned a => f a
  | Raised e => Raised e
  end.

Definition IndexError : exn := Exn "IndexError" "list index out of range".

(** [l[i]] for a non-negative index. *)
Definition index {A : Type} (l : list A) (i : nat) : outcome A :=
  match l !! i with
  | Some a => Returned a
  | None => Raised IndexError
  end.

(** [for a in l: s = body(a, s)], stopping at the first exception. *)
Fixpoint for_each {A S : Type} (l : list A) (body : A → S → outcome S) (s : S)
  : outcome S :=
  match l with
  | [] => Returned s
  | a :: l' => s' ← body a s; for_each l' body s'
  end.

(** [range(n)] for a length [n]. *)
Definition range (n : nat) : list nat := seq 0 n.

(** ** Images (the part of PIL the rasterizer uses) *)

Inductive color : Type := White | Black.

#[global] Instance color_eq_dec : EqDecision color.
Proof. solve_decision. Defined.

(** An image: its size and its pixel buffer, [height] rows of [width]
    pixels each, row [0] on top. *)
Record Image : Type := mkImage {
  width : Z;
  height : Z;
  rows : list (list color)
}.

(** [Image.new('RGB', (w, h), fill)]. *)
Definition Image_new (w h : Z) (fill : color) : outcome Image :=
  if (w <? 0) || (h <? 0)
  then Raised (Exn "ValueError" "Width and height must be >= 0")
  else Returned (mkImage w h (replicate (Z.to_nat h) (replicate (Z.to_nat w) fill))).

Definition in_rect (x0 y0 x1 y1 : Z) (i j : nat) : bool :=
  (x0 <=? Z.of_nat i) && (Z.of_nat i <=? x1) &&
  (y0 <=? Z.of_nat j) && (Z.of_nat j <=? y1).

(** [ImageDraw.Draw(img).rectangle([x0, y0, x1, y1], fill=fill)]: every
    pixel of the image with [x0 <= x <= x1] and [y0 <= y <= y1] gets the
    fill colour (both corners are inclusive, the part outside the image
    is clipped).  Corners in the wrong order are refused, as current
    Pillow does; the rasterizer gives them in the right order whenever
    [module_size >= 1]. *)
Definition rectangle (img : Image) (x0 y0 x1 y1 : Z) (fill : color)
  : outcome Image :=
  if x1 <? x0 then
    Raised (Exn "ValueError" "x1 must be greater than or equal to x0")
  else if y1 <? y0 then
    Raised (Exn "ValueError" "y1 must be greater than or equal to y0")
  else
    Returned (mkImage (width img) (height img)
      (imap (λ j row, imap (λ i p, if in_rect x0 y0 x1 y1 i j then fill else p) row)
            (rows img))).

(** The colour of pixel [(x, y)], if it lies inside the buffer. *)
Definition pixel_at (img : Image) (x y : Z) : option color :=
  if (x <? 0) || (y <? 0) then None
  else row ← rows img !! Z.to_nat y; row !! Z.to_nat x.

(** ** The world *)

Inductive Encoding : Type := LocaleEncoding | Utf8.

(** What a file holds: text written through a text-mode file object of a
    given encoding, or a saved raster image (a lossless format, so the
    file stands for the pixel buffer). *)
Inductive FileData : Type :=
  | TextFile (enc : Encoding) (text : string)
  | ImageFile (img : Image).

(** The world a call runs in: the files, the answers of the system to
    writes and removals (permissions, free space: fixed during a run),
    and the lines printed so far, one entry for each call of [print].

    [writable path]: a write to [path] goes through, that is the file
    can be opened for writing and what is written to it is stored.
    [torn path], for a path that cannot be written, tells how a text
    write to it fails: [None] when [open(path, 'w')] is refused, [Some n]
    when the file is opened (created, or emptied) and the error comes
    after [n] characters have reached it.  [removable path]: [os.remove]
    is allowed to remove the file at [path]. *)
Record World : Type := mkWorld {
  files : gmap string FileData;
  writable : string → bool;
  torn : string → option nat;
  removable : string → bool;
  stdout : list string
}.

Definition Py (A : Type) : Type := World → World * outcome A.

#[global] Instance Py_ret : MRet Py := λ A a w, (w, Returned a).
#[global] Instance Py_bind : MBind Py := λ A B f m w,
  match m w with
  | (w', Returned a) => f a w'
  | (w', Raised e) => (w', Raised e)
  end.

Definition lift {A : Type} (o : outcome A) : Py A := λ w, (w, o).

(** [try: body  except Exception as e: handler(e)]. *)
Definition try_except {A : Type} (body : Py A) (handler : exn → Py A) : Py A :=
  λ w, match body w with
       | (w', Returned a) => (w', Returned a)
       | (w', Raised e) => handler e w'
       end.

(** [try: body  finally: cleanup]: the cleanup runs on every way out of
    the body; the body's outcome stands unless the cleanup itself raises. *)
Definition try_finally {A : Type} (body : Py A) (cleanup : Py unit) : Py A :=
  λ w, match body w with
       | (w', r) =>
           match cleanup w' with
           | (w'', Returned _) => (w'', r)
           | (w'', Raised e) => (w'', Raised e)
           end
       end.

(** [print(s)]: one more line on standard output. *)
Definition print (s : string) : Py unit :=
  λ w, (mkWorld (files w) (writable w) (torn w) (removable w) (stdout w ++ [s]),
        Returned ()).

(** The error of a failed write (the message is schematic). *)
Definition OSError (path : string) : exn :=
  Exn "OSError" ("cannot write " +:+ path).

(** [open(path, 'w', encoding=enc)]: the file is created, or emptied
    when it is there already; a refusal changes nothing. *)
Definition open_w (path : string) (enc : Encoding) : Py unit :=
  λ w, if writable w path || bool_decide (is_Some (torn w path))
       then (mkWorld (<[path := TextFile enc EmptyString]> (files w))
               (writable w) (torn w) (removable w) (stdout w), Returned ())
       else (w, Raised (OSError path)).

(** What is written through the file object opened at [path] until the
    [with] block closes it: the whole [text] is stored, or the error
    leaves in the file the characters that had reached it. *)
Definition f_write (path : string) (enc : Encoding) (text : string) : Py unit :=
  λ w, if writable w path
       then (mkWorld (<[path := TextFile enc text]> (files w))
               (writable w) (torn w) (removable w) (stdout w), Returned ())
       else
         match torn w path with
         | Some n =>
             (mkWorld (<[path := TextFile enc (String.substring 0 n text)]> (files w))
                (writable w) (torn w) (removable w) (stdout w),
              Raised (OSError path))
         | None => (w, Raised (OSError path))
         end.

(** [with open(path, 'w', encoding=enc) as f: f.write(text)]. *)
Definition write_file (path : string) (enc : Encoding) (text : string) : Py unit :=
  open_w path enc;;
  f_write path enc text.

(** [img.save(filename)].  A refused save changes nothing: the refusals
    of the model are those that come before the file is opened (a path
    that cannot be opened, a file format that is not known). *)
Definition save (img : Image) (filename : string) : Py unit :=
  λ w, if writable w filename
       then (mkWorld (<[filename := ImageFile img]> (files w))
               (writable w) (torn w) (removable w) (stdout w), Returned ())
       else (w, Raised (OSError filename)).

(** ** Rasterizer: [matrix_to_image] *)

(** The body of the two nested loops for one cell. *)
Definition draw_cell (matrix : list (list Z)) (module_size border : Z)
  (y x : nat) (img : Image) : outcome Image :=
  row ← index matrix y;
  v ← index row x;
  if 0 <? v then
    let img_x := (Z.of_nat x + border) * module_size in
    let img_y := (Z.of_nat y + border) * module_size in
    rectangle img img_x img_y (img_x + module_size - 1) (img_y + module_size - 1) Black
  else Returned img.

Definition draw_modules (matrix : list (list Z)) (module_size border : Z)
  (img : Image) : outcome Image :=
  let size := length matrix in
  for_each (range size) (λ y img,
    for_each (range size) (λ x img, draw_cell matrix module_size border y x img) img)
    img.

(** Lines 117-140: the white canvas and the drawing loops. *)
Definition render (matrix : list (list Z)) (module_size border : Z)
  : outcome Image :=
  let size := Z.of_nat (length matrix) in
  let total_size := size + 2 * border in
  let img_size := total_size * module_size in
  img ← Image_new img_size img_size White;
  draw_modules matrix module_size border img.

Definition matrix_to_image (matrix : list (list Z)) (filename : string)
  (module_size border : Z) : Py bool :=
  match matrix with
  | [] =>
      print "No matrix data provided";;
      mret false
  | _ =>
      let size := Z.of_nat (length matrix) in
      let total_size := size + 2 * border in
      let img_size := total_size * module_size in
      print ("Creating " +:+ pretty img_size +:+ "x" +:+ pretty img_size
             +:+ " image (matrix: " +:+ pretty size +:+ "x" +:+ pretty size
             +:+ ", module: " +:+ pretty module_size +:+ "px, border: "
             +:+ pretty border +:+ ")");;
      img ← lift (render matrix module_size border);
      save img filename;;
      print ("Saved QR code as " +:+ filename);;
      mret true
  end.

(** ** Python string operations used by the parser *)

Definition nl : string := String "010"%char EmptyString.
Definition dq : string := String "034"%char EmptyString.

Definition code (c : ascii) : N := N_of_ascii c.

(** [c.isspace()], the white space of [str.strip()] and [str.split()]:
    TAB..CR, FS..US, SPACE, NEL and NBSP. *)
Definition is_space (c : ascii) : bool :=
  let n := code c in
  ((9 <=? n) && (n <=? 13) || (28 <=? n) && (n <=? 31) || (n =? 32)
   || (n =? 133) || (n =? 160))%N.

(** The white space [int()] skips around a literal: TAB..CR and SPACE,
    and, beyond ASCII, NEL and NBSP (FS..US are not skipped). *)
Definition is_int_space (c : ascii) : bool :=
  let n := code c in
  ((9 <=? n) && (n <=? 13) || (n =? 32) || (n =? 133) || (n =? 160))%N.

Fixpoint lstrip (s : string) : string :=
  match s with
  | String c s' => if is_space c then lstrip s' else s
  | EmptyString => EmptyString
  end.

Fixpoint rstrip (s : string) : string :=
  match s with
  | String c s' =>
      match rstrip s' with
      | EmptyString => if is_space c then EmptyString else String c EmptyString
      | r => String c r
      end
  | EmptyString => EmptyString
  end.

(** [s.strip()]. *)
Definition strip (s : string) : string := rstrip (lstrip s).

(** [s.split(sep)] for a one-character separator: the pieces between
    the separators, empty ones included; never the empty list. *)
Fixpoint split_on (sep : ascii) (s : string) : list string :=
  match s with
  | EmptyString => [EmptyString]
  | String c s' =>
      if Ascii.eqb c sep then EmptyString :: split_on sep s'
      else match split_on sep s' with
           | piece :: pieces => String c piece :: pieces
           | [] => [String c EmptyString]
           end
  end.

(** [s.split()]: the maximal runs of characters that are not white
    space; [cur] is the run being read. *)
Fixpoint split_go (s : string) (cur : string) : list string :=
  match s with
  | EmptyString =>
      match cur with EmptyString => [] | _ => [cur] end
  | String c s' =>
      if is_space c then
        match cur with
        | EmptyString => split_go s' EmptyString
        | _ => cur :: split_go s' EmptyString
        end
      else split_go s' (cur +:+ String c EmptyString)
  end.

Definition split (s : string) : list string := split_go s EmptyString.

Definition digit_val (c : ascii) : option Z :=
  let n := code c in
  if ((48 <=? n) && (n <=? 57))%N then Some (Z.of_N n - 48) else None.

(** The digits of a literal after the first one: digits, each
    optionally preceded by one underscore.  Returns the value and the
    rest of the input. *)
Fixpoint int_digits (s : string) (acc : Z) : option (Z * string) :=
  match s with
  | EmptyString => Some (acc, EmptyString)
  | String c s' =>
      match digit_val c with
      | Some d => int_digits s' (10 * acc + d)
      | None =>
          if Ascii.eqb c "_" then
            match s' with
            | String c2 s'' =>
                match digit_val c2 with
                | Some d => int_digits s'' (10 * acc + d)
                | None => None
                end
            | EmptyString => None
            end
          else Some (acc, s)
      end
  end.

Fixpoint skip_int_space (s : string) : string :=
  match s with
  | String c s' => if is_int_space c then skip_int_space s' else s
  | EmptyString => EmptyString
  end.

Definition int_unsigned (s : string) : option Z :=
  match s with
  | String c s' =>
      match digit_val c with
      | Some d =>
          match int_digits s' d with
          | Some (v, rest) =>
              match skip_int_space rest with
              | EmptyString => Some v
              | _ => None
              end
          | None => None
          end
      | None => None
      end
  | EmptyString => None
  end.

(** The value [int(s)] gives in base 10, [None] where it raises
    [ValueError]: white space, an optional sign, digits with single
    underscores between them, white space.  Integers are unbounded; the
    interpreter's configurable limit on the number of digits of a
    literal is left out. *)
Definition py_int (s : string) : option Z :=
  match skip_int_space s with
  | String "+" s' => int_unsigned s'
  | String "-" s' => Z.opp <$> int_unsigned s'
  | s' => int_unsigned s'
  end.

(** [int(s)]. *)
Definition int (s : string) : outcome Z :=
  match py_int s with
  | Some z => Returned z
  | None =>
      Raised (Exn "ValueError"
                ("invalid literal for int() with base 10: '" +:+ s +:+ "'"))
  end.

(** [[f(x) for x in l]]. *)
Fixpoint map_outcome {A B : Type} (f : A → outcome B) (l : list A)
  : outcome (list B) :=
  match l with
  | [] => Returned []
  | a :: l' => b ← f a; bs ← map_outcome f l'; Returned (b :: bs)
  end.

(** [range(a, b)]. *)
Definition range2 (a b : Z) : list Z :=
  (λ k : nat, a + Z.of_nat k) <$> seq 0 (Z.to_nat (b - a)).

(** [l[k]] for any integer: a negative index counts from the end. *)
Definition py_index {A : Type} (l : list A) (k : Z) : outcome A :=
  if k <? 0 then
    if k + Z.of_nat (length l) <? 0 then Raised IndexError
    else index l (Z.to_nat (k + Z.of_nat (length l)))
  else index l (Z.to_nat k).

(** ** Matrix source: [lua_qr_to_matrix] *)

Definition temp_script : string := "temp_qr_gen.lua".

(** The script written for the generator, with [text] spliced in. *)
Definition lua_script (text : string) : string :=
  nl +:+ "    local qrencode = dofile(" +:+ dq +:+ "qrencode.lua" +:+ dq +:+ ")" +:+ nl
  +:+ "    local text = " +:+ dq +:+ text +:+ dq +:+ nl
  +:+ "    local ok, matrix = qrencode.qrcode(text)" +:+ nl
  +:+ "    " +:+ nl
  +:+ "    if not ok then" +:+ nl
  +:+ "        print(" +:+ dq +:+ "ERROR: " +:+ dq +:+ " .. matrix)" +:+ nl
  +:+ "        os.exit(1)" +:+ nl
  +:+ "    end" +:+ nl
  +:+ "    " +:+ nl
  +:+ "    -- Output matrix as JSON-like format for Python to parse" +:+ nl
  +:+ "    print(" +:+ dq +:+ "MATRIX_START" +:+ dq +:+ ")" +:+ nl
  +:+ "    print(#matrix)  -- size" +:+ nl
  +:+ "    for y = 1, #matrix do" +:+ nl
  +:+ "        local row = {}" +:+ nl
  +:+ "        for x = 1, #matrix[y] do" +:+ nl
  +:+ "            table.insert(row, matrix[x][y])" +:+ nl
  +:+ "        end" +:+ nl
  +:+ "        -- Output row as space-separated values" +:+ nl
  +:+ "        print(table.concat(row, " +:+ dq +:+ " " +:+ dq +:+ "))" +:+ nl
  +:+ "    end" +:+ nl
  +:+ "    print(" +:+ dq +:+ "MATRIX_END" +:+ dq +:+ ")" +:+ nl
  +:+ "    ".

(** What [subprocess.run(..., capture_output=True, text=True)] returns. *)
Record CompletedProcess : Type := mkCompleted {
  returncode : Z;
  proc_stdout : string;
  proc_stderr : string
}.

(** The loop that looks for the two sentinel lines: [i] is the index of
    the line at the head, [matrix_start] the value found so far.  Returns
    [(matrix_start, matrix_end)], [-1] standing for "not found"; the
    loop stops at the first [MATRIX_END]. *)
Fixpoint scan_markers (lines : list string) (i : Z) (matrix_start : Z) : Z * Z :=
  match lines with
  | [] => (matrix_start, -1)
  | line :: rest =>
      if String.eqb line "MATRIX_START" then scan_markers rest (i + 1) i
      else if String.eqb line "MATRIX_END" then (matrix_start, i)
      else scan_markers rest (i + 1) matrix_start
  end.

(** The rows between the sentinels: [matrix.append([int(x) for x in
    lines[i].split()])] for [i] in [range(matrix_start + 2, matrix_end)]. *)
Definition parse_rows (lines : list string) (matrix_start matrix_end : Z)
  : outcome (list (list Z)) :=
  for_each (range2 (matrix_start + 2) matrix_end)
    (λ i matrix,
       line ← py_index lines i;
       row_values ← map_outcome int (split line);
       Returned (matrix ++ [row_values]))
    [].

(** [size = int(lines[matrix_start + 1])]. *)
Definition parse_size (lines : list string) (matrix_start : Z) : outcome Z :=
  line ← py_index lines (matrix_start + 1);
  int line.

(** A row as [split] and [int] read it: its values, or [None] when a
    token is not an integer literal. *)
Definition read_row (line : string) : option (list Z) := mapM py_int (split line).

(** The part of [lua_qr_to_matrix] after the check of the return code. *)
Definition parse_output (out : string) : Py (option (list (list Z))) :=
  let lines := split_on "010" (strip out) in
  let '(matrix_start, matrix_end) := scan_markers lines 0 (-1) in
  if (matrix_start =? -1) || (matrix_end =? -1) then
    print "Could not find matrix data in Lua output";;
    mret None
  else
    size ← lift (parse_size lines matrix_start);
    matrix ← lift (parse_rows lines matrix_start matrix_end);
    print ("Parsed matrix: " +:+ pretty size +:+ "x"
           +:+ pretty (Z.of_nat (length matrix)));;
    mret (Some matrix).

(** [os.remove(path)]: the file is removed, unless there is none or the
    removal is refused. *)
Definition os_remove (path : string) : Py unit :=
  λ w, match files w !! path with
       | Some _ =>
           if removable w path
           then (mkWorld (delete path (files w))
                   (writable w) (torn w) (removable w) (stdout w), Returned ())
           else (w, Raised (Exn "PermissionError"
                              ("Permission denied: '" +:+ path +:+ "'")))
       | None =>
           (w, Raised (Exn "FileNotFoundError"
                         ("No such file or directory: '" +:+ path +:+ "'")))
       end.

Section MatrixSource.

(** The generator process: from the command line and the file system
    it finds, the file system it leaves and what [subprocess.run]
    gives back (a completed process, or an exception when the process
    cannot be started or its output cannot be decoded). *)
Variable run_process :
  list string → gmap string FileData →
  gmap string FileData * outcome CompletedProcess.

Definition subprocess_run (argv : list string) : Py CompletedProcess :=
  λ w, let '(fs, r) := run_process argv (files w) in
       (mkWorld fs (writable w) (torn w) (removable w) (stdout w), r).

(** The body of the [try] statement: the process is run and its output
    parsed. *)
Definition run_and_parse : Py (option (list (list Z))) :=
  result ← subprocess_run ["lua"; temp_script];
  if negb (returncode result =? 0) then
    print ("Lua error: " +:+ proc_stderr result);;
    mret None
  else parse_output (proc_stdout result).

(** The [finally] clause: the removal, with its own catch-all handler. *)
Definition remove_script : Py unit :=
  try_except (os_remove temp_script) (λ _, mret ()).

Definition lua_qr_to_matrix (text : string) (ec_level : option string)
  : Py (option (list (list Z))) :=
  write_file temp_script LocaleEncoding (lua_script text);;
  try_finally
    (try_except run_and_parse
       (λ e,
          print ("Error generating matrix: " +:+ exn_msg e);;
          mret None))
    remove_script.

End MatrixSource.

(** ** Decoder: [qr_decoder.py] *)

(** The truth value of a [str]. *)
Definition truthy (s : string) : bool :=
  match s with EmptyString => false | _ => true end.

(** [c in s]. *)
Fixpoint contains (c : ascii) (s : string) : bool :=
  match s with
  | EmptyString => false
  | String c' s' => Ascii.eqb c c' || contains c s'
  end.

(** A library call that reads the file system and changes nothing. *)
Definition read_fs {A : Type} (f : gmap string FileData → outcome A) : Py A :=
  λ w, (w, f (files w)).

(** [os.path.exists(path)]. *)
Definition os_path_exists (path : string) : Py bool :=
  read_fs (λ fs, Returned (bool_decide (is_Some (fs !! path)))).

(** A [for] loop whose body has effects. *)
Fixpoint for_each_py {A S : Type} (l : list A) (body : A → S → Py S) (s : S)
  : Py S :=
  match l with
  | [] => mret s
  | a :: l' => s' ← body a s; for_each_py l' body s'
  end.

(** The command line of the decoder, as [argparse] hands it over. *)
Record Args : Type := mkArgs {
  images : list string;
  output : option string;
  verbose : bool
}.

(** The status the interpreter exits with after [sys.exit(main())]: the
    value [main] returned, or [1] when an exception escaped. *)
Definition exit_status (r : outcome Z) : Z :=
  match r with
  | Returned status => status
  | Raised _ => 1
  end.

(** The libraries the decoder calls.  [ndarray] is a loaded image,
    [Points] the corner points as [points.tolist()] gives them, with the
    truth value and the printed form of that list. *)
Class Libraries : Type := {
  ndarray : Type;
  Points : Type;
  points_nonempty : Points → bool;
  points_repr : Points → string;
  (** [cv2.imread(path)]: [None] when the file cannot be read as an image. *)
  cv2_imread : string → gmap string FileData → outcome (option ndarray);
  (** [cv2.QRCodeDetector().detectAndDecode(image)]: the text (empty
      when no code is found) and the corner points or [None]. *)
  detectAndDecode : ndarray → outcome (string * option Points);
  (** [glob.glob(pattern)]. *)
  glob : string → gmap string FileData → list string
}.

Section Decoder.

Context {libs : Libraries}.

(** One entry of the result list, the dictionary with keys ['data'],
    ['type'] and ['points']. *)
Record DecodeResult : Type := mkResult {
  data : string;
  type : string;
  points : option Points
}.

Definition decode_qr_image (image_path : string) : Py (list DecodeResult) :=
  try_except
    (image ← read_fs (cv2_imread image_path);
     match image with
     | None =>
         print ("Could not read image: " +:+ image_path);;
         mret []
     | Some image =>
         '(data, points) ← lift (detectAndDecode image);
         let results :=
           if truthy data then [mkResult data "QRCODE" points] else [] in
         mret results
     end)
    (λ e,
       print ("Error processing " +:+ image_path +:+ ": " +:+ exn_msg e);;
       mret []).

(** The first loop of [main]: glob patterns are expanded, other
    arguments are taken as they are. *)
Definition expand_patterns (patterns : list string) : Py (list string) :=
  for_each_py patterns
    (λ pattern image_files,
       if contains "*" pattern || contains "?" pattern then
         matches ← read_fs (λ fs, Returned (glob pattern fs));
         mret (image_files ++ matches)
       else mret (image_files ++ [pattern]))
    [].

Definition when (b : bool) (body : Py unit) : Py unit :=
  if b then body else mret ().

(** The body of the loop over the entries of one result list. *)
Definition report_result (verbose : bool) (entry : nat * DecodeResult)
  (all_decoded_text : list string) : Py (list string) :=
  let '(i, result) := entry in
  let decoded_text := data result in
  let all_decoded_text := all_decoded_text ++ [decoded_text] in
  when verbose
    (print ("QR Code #" +:+ pretty (Z.of_nat i + 1) +:+ ":");;
     print ("  Type: " +:+ type result);;
     match points result with
     | Some pts =>
         when (points_nonempty pts)
           (print ("  Corner points: " +:+ points_repr pts))
     | None => mret ()
     end);;
  print ("Text: " +:+ decoded_text);;
  mret all_decoded_text.

(** The body of the decoding loop of [main] for one path. *)
Definition decode_path (verbose : bool) (image_path : string)
  (all_decoded_text : list string) : Py (list string) :=
  found ← os_path_exists image_path;
  if negb found then
    print ("File not found: " +:+ image_path);;
    mret all_decoded_text
  else
    when verbose (print (nl +:+ "--- Decoding: " +:+ image_path +:+ " ---"));;
    results ← decode_qr_image image_path;
    match results with
    | [] =>
        when verbose (print "No QR codes found in this image");;
        mret all_decoded_text
    | _ =>
        for_each_py (imap (λ i result, (i, result)) results)
          (report_result verbose) all_decoded_text
    end.

(** What the [f.write(text + '\n')] loop sends to the file. *)
Definition output_text (all_decoded_text : list string) : string :=
  foldl (λ written text, written +:+ (text +:+ nl)) EmptyString all_decoded_text.

Definition main (args : Args) : Py Z :=
  image_files ← expand_patterns (images args);
  match image_files with
  | [] =>
      print "No image files found!";;
      mret 1
  | _ =>
      all_decoded_text ← for_each_py image_files (decode_path (verbose args)) [];
      match output args with
      | Some path =>
          when (truthy path)
            (write_file path Utf8 (output_text all_decoded_text);;
             print (nl +:+ "Decoded text saved to: " +:+ path))
      | None => mret ()
      end;;
      match all_decoded_text with
      | [] =>
          print (nl +:+ "No QR codes were successfully decoded.");;
          mret 1
      | _ => mret 0
      end
  end.

(** The script run from the command line. *)
Definition run_main (args : Args) (w : World) : World * Z :=
  let '(w', r) := main args w in (w', exit_status r).

Definition decode_qr_simple (image_path : string) : Py (option string) :=
  results ← decode_qr_image image_path;
  match results with
  | result :: _ => mret (Some (data result))
  | [] => mret None
  end.

(** The paths the decoding loop of [main] goes through, in order. *)
Definition image_files (fs : gmap string FileData) (patterns : list string)
  : list string :=
  patterns ≫= λ pattern,
    if contains "*" pattern || contains "?" pattern then glob pattern fs
    else [pattern].

(** The text the detector finds in the image at a path, if the image
    loads and the text is not empty. *)
Definition detected (fs : gmap string FileData) (image_path : string)
  : option string :=
  match cv2_imread image_path fs with
  | Returned (Some image) =>
      match detectAndDecode image with
      | Returned (text, _) => if truthy text then Some text else None
      | Raised _ => None
      end
  | _ => None
  end.

(** The payload decoded from a path of the batch: none for a missing file. *)
Definition payload (fs : gmap string FileData) (image_path : string)
  : option string :=
  if bool_decide (is_Some (fs !! image_path)) then detected fs image_path
  else None.

(** The payloads of a batch, in the order of the paths. *)
Definition payloads (fs : gmap string FileData) (paths : list string)
  : list string :=
  omap (payload fs) paths.

(** An output file is asked for: [--output] with a non-empty name. *)
Definition output_requested (args : Args) : option string :=
  match output args with
  | Some path => if truthy path then Some path else None
  | None => None
  end.

End Decoder.

(** ** Vocabulary of the statements *)

(** The pixel in column [i] of row [j] of a buffer. *)
Definition px (img : Image) (i j : nat) : option color :=
  row ← rows img !! j; row !! i.

(** [img'] is [img] with the pixels selected by [cover] painted black. *)
Definition paints (cover : nat → nat → bool) (img img' : Image) : Prop :=
  width img' = width img ∧ height img' = height img ∧
  length <$> rows img' = length <$> rows img ∧
  ∀ i j, px img' i j = (λ p, if cover i j then Black else p) <$> px img i j.

(** Pixel [(i, j)] lies in the square of the module in row [y], column [x]. *)
Definition in_module (module_size border : Z) (y x : nat) (i j : nat) : bool :=
  let img_x := (Z.of_nat x + border) * module_size in
  let img_y := (Z.of_nat y + border) * module_size in
  in_rect img_x img_y (img_x + module_size - 1) (img_y + module_size - 1) i j.

(** The value of cell (row [y], column [x]), if there is one. *)
Definition cell (matrix : list (list Z)) (y x : nat) : option Z :=
  row ← matrix !! y; row !! x.

Definition dark (matrix : list (list Z)) (y x : nat) : bool :=
  match cell matrix y x with Some v => 0 <? v | None => false end.

(** A square matrix: as many cells in every row as there are rows. *)
Definition square (matrix : list (list Z)) : Prop :=
  Forall (λ row, length row = length matrix) matrix.

(** Two matrices of one shape whose cells agree on being positive. *)
Definition same_signs (m1 m2 : list (list Z)) : Prop :=
  Forall2 (Forall2 (λ v1 v2, (0 <? v1) = (0 <? v2))) m1 m2.

(** The side of the image of an [n]-row matrix. *)
Definition side (n : nat) (module_size border : Z) : Z :=
  (Z.of_nat n + 2 * border) * module_size.

(** The pixels the drawing loops paint: those in the square of a dark
    cell among the first [n] rows and columns. *)
Definition covered (matrix : list (list Z)) (module_size border : Z)
  (i j : nat) : bool :=
  let n := length matrix in
  existsb (λ y, existsb (λ x, dark matrix y x && in_module module_size border y x i j)
                  (range n)) (range n).

(** The line [matrix_to_image] prints before it draws. *)
Definition creating_line (n : nat) (module_size border : Z) : string :=
  let size := Z.of_nat n in
  let img_size := side n module_size border in
  "Creating " +:+ pretty img_size +:+ "x" +:+ pretty img_size
  +:+ " image (matrix: " +:+ pretty size +:+ "x" +:+ pretty size
  +:+ ", module: " +:+ pretty module_size +:+ "px, border: "
  +:+ pretty border +:+ ")".

(** Whether a cell is read as dark, where there is a cell. *)
Definition sign_at (matrix : list (list Z)) (y x : nat) : option bool :=
  Z.ltb 0 <$> cell matrix y x.

(** ** Data for the examples *)

(** The matrix of the specification's concrete scenario. *)
Definition checker3 : list (list Z) := [[1; -1; 1]; [-1; 1; -1]; [1; -1; 1]].

(** A world with an empty, writable file system and nothing printed. *)
Definition fresh_world : World :=
  mkWorld ∅ (λ _, true) (λ _, None) (λ _, true) [].

(** A world in which no file can be written. *)
Definition readonly_world : World :=
  mkWorld ∅ (λ _, false) (λ _, None) (λ _, true) [].

(** A world in which no file may be removed. *)
Definition sticky_world : World :=
  mkWorld ∅ (λ _, true) (λ _, None) (λ _, false) [].

(** A world without free space: a file can be created, and nothing can
    be stored in it. *)
Definition full_world : World :=
  mkWorld ∅ (λ _, false) (λ _, Some 0%nat) (λ _, true) [].

(** A matrix of one row that is wider than the matrix is high. *)
Definition wide_row : list (list Z) := [[1; 1]].

(** A matrix whose second row is shorter than the matrix is high. *)
Definition ragged : list (list Z) := [[1; -1]; [1]].

(** *** A stand-in detector

    A loaded image is stood for by its path; the detector finds [HELLO]
    in [hello.png], a two-line text in [card.png] and nothing elsewhere;
    files that hold text do not load as images. *)

Definition stub_imread (path : string) (fs : gmap string FileData)
  : outcome (option string) :=
  match fs !! path with
  | Some (ImageFile _) => Returned (Some path)
  | _ => Returned None
  end.

Definition two_lines : string := "a" +:+ nl +:+ "b".

Definition stub_detect (image : string) : outcome (string * option (list (Z * Z))) :=
  if String.eqb image "hello.png" then Returned ("HELLO", Some [(0, 0); (9, 0); (9, 9); (0, 9)])
  else if String.eqb image "card.png" then Returned (two_lines, None)
  else Returned (EmptyString, None).

Definition stub_glob (pattern : string) (fs : gmap string FileData) : list string :=
  [].

Definition stub_points_nonempty (pts : list (Z * Z)) : bool :=
  negb (bool_decide (pts = [])).

Definition stub_points_repr (pts : list (Z * Z)) : string := "[...]".

Definition stub : Libraries := {|
  ndarray := string;
  Points := list (Z * Z);
  points_nonempty := stub_points_nonempty;
  points_repr := stub_points_repr;
  cv2_imread := stub_imread;
  detectAndDecode := stub_detect;
  glob := stub_glob
|}.

Definition blank : Image := mkImage 1 1 [[White]].

(** A world with three image files and a text file; [locked.txt] cannot
    be written. *)
Definition gallery : World :=
  mkWorld
    (<["hello.png" := ImageFile blank]>
       (<["card.png" := ImageFile blank]>
          (<["blank.png" := ImageFile blank]>
             (<["notes.txt" := TextFile Utf8 "notes"]> ∅))))
    (λ path, negb (String.eqb path "locked.txt"))
    (λ _, None)
    (λ _, true)
    [].

(** A batch whose first path is missing. *)
Definition batch_with_gap : Args :=
  mkArgs ["gone.png"; "hello.png"] None false.

(** A batch whose output file cannot be written. *)
Definition batch_locked : Args :=
  mkArgs ["hello.png"] (Some "locked.txt") false.

(** A batch with an output file, a missing path and an image without code. *)
Definition batch_saved : Args :=
  mkArgs ["hello.png"; "gone.png"; "blank.png"] (Some "out.txt") false.

(** A batch whose only payload has two lines. *)
Definition batch_card : Args :=
  mkArgs ["card.png"] (Some "out.txt") false.

(** A batch whose pattern matches no file. *)
Definition batch_no_match : Args :=
  mkArgs ["*.png"] (Some "out.txt") false.

(** *** Generator processes *)

(** A generator that prints [out] and exits with status [0]. *)
Definition prints (out : string) (argv : list string) (fs : gmap string FileData)
  : gmap string FileData * outcome CompletedProcess :=
  (fs, Returned (mkCompleted 0 out EmptyString)).

(** A generator that fails with status [1]. *)
Definition fails (argv : list string) (fs : gmap string FileData)
  : gmap string FileData * outcome CompletedProcess :=
  (fs, Returned (mkCompleted 1 EmptyString "lua: error")).

(** No interpreter to start. *)
Definition missing_interpreter (argv : list string) (fs : gmap string FileData)
  : gmap string FileData * outcome CompletedProcess :=
  (fs, Raised (Exn "FileNotFoundError" "No such file or directory: 'lua'")).

(** A generator that removes the script it was started from. *)
Definition removes_script (argv : list string) (fs : gmap string FileData)
  : gmap string FileData * outcome CompletedProcess :=
  (delete temp_script fs, Returned (mkCompleted 0 EmptyString EmptyString)).

(** Output that declares size 3 and carries one row of two cells. *)
Definition short_output : string :=
  "MATRIX_START" +:+ nl +:+ "3" +:+ nl +:+ "1 -1" +:+ nl +:+ "MATRIX_END" +:+ nl.

(** Output with a cell that is not a number. *)
Definition bad_cell_output : string :=
  "MATRIX_START" +:+ nl +:+ "2" +:+ nl +:+ "1 x" +:+ nl +:+ "1 1" +:+ nl
  +:+ "MATRIX_END" +:+ nl.

(** Well-formed output for a 2 by 2 matrix. *)
Definition good_output : string :=
  "MATRIX_START" +:+ nl +:+ "2" +:+ nl +:+ "1 -1" +:+ nl +:+ "-1 1" +:+ nl
  +:+ "MATRIX_END" +:+ nl.

(** ** The rest of [matrix_to_image.py] and [qr_decoder.py] *)

(** [s * n] for a string. *)
Fixpoint repeat_str (s : string) (n : nat) : string :=
  match n with
  | O => EmptyString
  | S n' => s +:+ repeat_str s n'
  end.

(** [s.replace(old, new)] for one-character strings [old] and [new]. *)
Fixpoint replace_char (old new : ascii) (s : string) : string :=
  match s with
  | EmptyString => EmptyString
  | String c s' =>
      String (if Ascii.eqb c old then new else c) (replace_char old new s')
  end.

(** [s.startswith(p)]. *)
Fixpoint starts_with (p s : string) : bool :=
  match p, s with
  | EmptyString, _ => true
  | String a p', String b s' => Ascii.eqb a b && starts_with p' s'
  | String _ _, EmptyString => false
  end.

(** [needle in hay] for strings. *)
Fixpoint occurs_in (needle hay : string) : bool :=
  starts_with needle hay ||
  match hay with
  | EmptyString => false
  | String _ hay' => occurs_in needle hay'
  end.

(** The truth value of what [lua_qr_to_matrix] returns: [None] and the
    empty list are false. *)
Definition matrix_given (matrix : option (list (list Z))) : option (list (list Z)) :=
  match matrix with
  | Some (row :: rows) => Some (row :: rows)
  | _ => None
  end.

Module Generator.

(** The command line of [matrix_to_image.py], as [argparse] hands it
    over ([size] and [border] with their defaults 10 and 4 filled in). *)
Record Args : Type := mkArgs {
  text : string;
  output : option string;
  size : Z;
  border : Z;
  test : bool
}.

Section Tool.

Variable run_process :
  list string → gmap string FileData →
  gmap string FileData * outcome CompletedProcess.

(** The name of the image [test_qr_generation] asks the decoder for. *)
Definition decoded_name (text : string) : string :=
  "qr_" +:+ replace_char " " "_" text +:+ ".png".

Definition test_qr_generation (text : string) : Py bool :=
  print ("Testing QR generation for: '" +:+ text +:+ "'");;
  print (repeat_str "=" 50);;
  matrix ← lua_qr_to_matrix run_process text None;
  match matrix_given matrix with
  | None =>
      print "Failed to generate matrix";;
      mret false
  | Some matrix =>
      success ← matrix_to_image matrix "qr_test.png" 12 4;
      if negb success then mret false
      else
        result ← subprocess_run run_process
                   ["python"; "qr_decoder_opencv.py"; decoded_name text];
        print "Decode result:";;
        print (proc_stdout result);;
        mret (negb (occurs_in "No QR codes were successfully decoded"
                      (proc_stdout result)))
  end.

Definition main (args : Args) : Py Z :=
  if test args then
    success ← test_qr_generation (text args);
    print (nl +:+ "Test result: "
           +:+ (if success : bool then "✅ SUCCESS" else "❌ FAILED"));;
    mret (if success : bool then 0 else 1)
  else
    matrix ← lua_qr_to_matrix run_process (text args) None;
    match matrix_given matrix with
    | None => mret 1
    | Some matrix =>
        let output_file :=
          match output args with
          | Some name => if truthy name then name else "test.png"
          | None => "test.png"
          end in
        success ← matrix_to_image matrix output_file (size args) (border args);
        mret (if success : bool then 0 else 1)
    end.

End Tool.

End Generator.

Section DecodeMany.

Context {libs : Libraries}.

(** [len(points)] for the list of corner points. *)
Variable points_len : Points → nat.

(** The body of the loop over the entries of one result list in
    [decode_multiple_images]. *)
Definition show_result (entry : nat * DecodeResult) (_ : unit) : Py unit :=
  let '(i, result) := entry in
  print ("QR Code #" +:+ pretty (Z.of_nat i + 1) +:+ ":");;
  print ("  Type: " +:+ type result);;
  print ("  Data: " +:+ data result);;
  match points result with
  | Some pts =>
      when (points_nonempty pts)
        (print ("  Corner points found: " +:+ pretty (Z.of_nat (points_len pts))
                +:+ " points"))
  | None => mret ()
  end.

(** The body of the loop of [decode_multiple_images] for one path. *)
Definition show_path (image_path : string) (_ : unit) : Py unit :=
  found ← os_path_exists image_path;
  if negb found then print ("File not found: " +:+ image_path)
  else
    print (nl +:+ "--- Decoding: " +:+ image_path +:+ " ---");;
    results ← decode_qr_image image_path;
    match results with
    | [] => print "  No QR codes found in this image"
    | _ => for_each_py (imap (λ i result, (i, result)) results) show_result ()
    end.

Definition decode_multiple_images (image_paths : list string) : Py unit :=
  for_each_py image_paths show_path ().

End DecodeMany.

(** ** The output protocol of the generator script *)

(** [sep.join(pieces)]. *)
Fixpoint join (sep : string) (pieces : list string) : string :=
  match pieces with
  | [] => EmptyString
  | [piece] => piece
  | piece :: pieces' => piece +:+ sep +:+ join sep pieces'
  end.

(** One row as the script prints it: the values in decimal, separated
    by single spaces. *)
Definition row_line (row : list Z) : string := join " " (pretty <$> row).

(** The lines the script prints for a declared size and a list of rows. *)
Definition protocol_lines (size : Z) (rows : list (list Z)) : list string :=
  ["MATRIX_START"; pretty size] ++ (row_line <$> rows) ++ ["MATRIX_END"].

(** The text of those lines, each ended by a line feed, as [print]
    writes them. *)
Definition protocol_text (size : Z) (rows : list (list Z)) : string :=
  foldr (λ line rest, line +:+ nl +:+ rest) EmptyString (protocol_lines size rows).

(** Every character of [s] satisfies [P]. *)
Fixpoint all_chars (P : ascii → bool) (s : string) : bool :=
  match s with
  | EmptyString => true
  | String c s' => P c && all_chars P s'
  end.

Definition is_digit (c : ascii) : bool :=
  match digit_val c with Some _ => true | None => false end.

(** The characters of a printed integer. *)
Definition is_digit_or_dash (c : ascii) : bool := is_digit c || Ascii.eqb c "-".

(** The characters of a printed row. *)
Definition is_row_char (c : ascii) : bool := is_digit_or_dash c || Ascii.eqb c " ".

(** The number a run of digits stands for, read after [acc]. *)
Fixpoint dval (s : string) (acc : Z) : Z :=
  match s with
  | EmptyString => acc
  | String c s' =>
      match digit_val c with
      | Some d => dval s' (10 * acc + d)
      | None => acc
      end
  end.

(** *** More data for the examples *)

(** A process that answers the generator call with the checkerboard
    and any other call (the decoder's) with [decoder_out]. *)
Definition tool_process (decoder_out : string) (argv : list string)
  (fs : gmap string FileData) : gmap string FileData * outcome CompletedProcess :=
  match argv with
  | "lua" :: _ => (fs, Returned (mkCompleted 0 (protocol_text 3 checker3) EmptyString))
  | _ => (fs, Returned (mkCompleted 0 decoder_out EmptyString))
  end.

(** The file system in which the generator of the examples is started. *)
Definition scripted (text : string) : gmap string FileData :=
  <[temp_script := TextFile LocaleEncoding (lua_script text)]> ∅.

Definition tool_args : Generator.Args :=
  Generator.mkArgs "hi" (Some "out.png") 1 0 false.

Definition self_test_args : Generator.Args :=
  Generator.mkArgs "a b" None 10 4 true.

(** [len(points)] for the stand-in detector. *)
Definition stub_points_len (pts : list (Z * Z)) : nat := length pts.

(** The same command line with the other setting of [--verbose]. *)
Definition toggle_verbose (args : Args) : Args :=
  mkArgs (images args) (output args) (negb (verbose args)).


(** A detector library that fails: reading [broken.png] raises, and so
    does decoding the image read from [torn.png]. *)
Definition faulty_imread (path : string) (fs : gmap string FileData)
  : outcome (option string) :=
  if String.eqb path "broken.png" then Raised (Exn "cv2.error" "bad header")
  else Returned (Some path).

Definition faulty_detect (image : string) : outcome (string * option (list (Z * Z))) :=
  if String.eqb image "torn.png" then Raised (Exn "cv2.error" "out of memory")
  else stub_detect image.

Definition faulty : Libraries := {|
  ndarray := string;
  Points := list (Z * Z);
  points_nonempty := stub_points_nonempty;
  points_repr := stub_points_repr;
  cv2_imread := faulty_imread;
  detectAndDecode := faulty_detect;
  glob := stub_glob
|}.

(** A batch with an output file whose only image holds no code. *)
Definition batch_blank : Args :=
  mkArgs ["blank.png"] (Some "out.txt") false.
(** ** Loops *)

Lemma for_each_ext {A S : Type} (l : list A) (f g : A → S → outcome S) s :
  (∀ a s, a ∈ l → f a s = g a s) → for_each l f s = for_each l g s.
Proof.
  revert s. induction l as [|a l IH]; intros s Hfg; simpl; [done|].
  rewrite Hfg by left. destruct (g a s) as [s'|e]; simpl; [|done].
  apply IH. intros a' s'' Hin. apply Hfg. by right.
Qed.

Lemma for_each_Returned_inv {A S : Type} (l : list A) (f : A → S → outcome S) s s' :
  for_each l f s = Returned s' →
  ∀ a, a ∈ l → ∃ s1 s2, f a s1 = Returned s2.
Proof.
  revert s. induction l as [|a l IH]; intros s Hrun b Hin.
  - by apply elem_of_nil in Hin.
  - simpl in Hrun. destruct (f a s) as [s1|e] eqn:Hf; simpl in Hrun; [|done].
    apply elem_of_cons in Hin as [->|Hin]; [by eauto|].
    by eapply IH.
Qed.

Lemma for_each_Raised_inv {A S : Type} (l : list A) (f : A → S → outcome S) s e :
  for_each l f s = Raised e →
  ∃ a s1, a ∈ l ∧ f a s1 = Raised e.
Proof.
  revert s. induction l as [|a l IH]; intros s Hrun; simpl in Hrun; [done|].
  destruct (f a s) as [s1|e'] eqn:Hf; simpl in Hrun.
  - destruct (IH _ Hrun) as (b & s2 & Hin & Hb).
    exists b, s2. split; [by right | done].
  - exists a, s. split; [by left | congruence].
Qed.

(** ** Painting *)

Lemma paints_refl img : paints (λ _ _, false) img img.
Proof.
  repeat split. intros i j. by destruct (px img i j).
Qed.

Lemma paints_trans c1 c2 img1 img2 img3 :
  paints c1 img1 img2 → paints c2 img2 img3 →
  paints (λ i j, c1 i j || c2 i j) img1 img3.
Proof.
  intros (Hw1 & Hh1 & Hl1 & Hp1) (Hw2 & Hh2 & Hl2 & Hp2).
  repeat split; try congruence.
  intros i j. rewrite Hp2, Hp1.
  destruct (px img1 i j); simpl; [|done].
  by destruct (c1 i j), (c2 i j).
Qed.

Lemma paints_ext c1 c2 img img' :
  (∀ i j, c1 i j = c2 i j) → paints c1 img img' → paints c2 img img'.
Proof.
  intros Heq (Hw & Hh & Hl & Hp). repeat split; try done.
  intros i j. by rewrite Hp, Heq.
Qed.

Lemma rectangle_paints img x0 y0 x1 y1 :
  x0 ≤ x1 → y0 ≤ y1 →
  ∃ img', rectangle img x0 y0 x1 y1 Black = Returned img' ∧
          paints (in_rect x0 y0 x1 y1) img img'.
Proof.
  intros Hx Hy. unfold rectangle.
  destruct (Z.ltb_spec x1 x0); [lia|]. destruct (Z.ltb_spec y1 y0); [lia|].
  eexists. split; [done|]. repeat split; simpl.
  - apply list_eq. intros j. rewrite !list_lookup_fmap, list_lookup_imap.
    destruct (rows img !! j); simpl; [|done]. by rewrite length_imap.
  - intros i j. unfold px. simpl. rewrite list_lookup_imap.
    destruct (rows img !! j) as [row|]; simpl; [|done].
    by rewrite list_lookup_imap.
Qed.

Lemma for_each_paints {A : Type} (l : list A) (body : A → Image → outcome Image)
    (cover : A → nat → nat → bool) :
  (∀ a img, a ∈ l → ∃ img', body a img = Returned img' ∧ paints (cover a) img img') →
  ∀ img, ∃ img', for_each l body img = Returned img' ∧
                 paints (λ i j, existsb (λ a, cover a i j) l) img img'.
Proof.
  induction l as [|a l IH]; intros Hbody img; simpl.
  - exists img. split; [done | apply paints_refl].
  - destruct (Hbody a img) as (img1 & -> & Hp1); [by left|]. simpl.
    destruct (IH (λ b img0 Hin, Hbody b img0 (list_elem_of_further _ _ _ Hin)) img1)
      as (img2 & -> & Hp2).
    exists img2. split; [done|]. by eapply paints_trans.
Qed.

Lemma draw_cell_paints matrix module_size border y x v img :
  cell matrix y x = Some v → 1 ≤ module_size →
  ∃ img', draw_cell matrix module_size border y x img = Returned img' ∧
          paints (λ i j, (0 <? v) && in_module module_size border y x i j) img img'.
Proof.
  intros Hcell Hms. unfold draw_cell, cell, index in *.
  destruct (matrix !! y) as [row|]; simpl in *; [|done].
  rewrite Hcell. simpl. destruct (0 <? v).
  - apply rectangle_paints; lia.
  - exists img. split; [done | apply paints_refl].
Qed.

Lemma elem_of_range n k : k ∈ range n ↔ (k < n)%nat.
Proof. unfold range. rewrite elem_of_seq. lia. Qed.

Lemma draw_modules_paints matrix module_size border img :
  (∀ y x, (y < length matrix)%nat → (x < length matrix)%nat →
          is_Some (cell matrix y x)) →
  1 ≤ module_size →
  ∃ img', draw_modules matrix module_size border img = Returned img' ∧
          paints (covered matrix module_size border) img img'.
Proof.
  intros Hcells Hms. unfold draw_modules, covered.
  apply (for_each_paints (range (length matrix)) _
           (λ y i j, existsb (λ x, dark matrix y x && in_module module_size border y x i j)
                       (range (length matrix)))).
  intros y img1 Hy%elem_of_range.
  apply (for_each_paints (range (length matrix)) _
           (λ x i j, dark matrix y x && in_module module_size border y x i j)).
  intros x img2 Hx%elem_of_range.
  destruct (Hcells y x Hy Hx) as [v Hv].
  destruct (draw_cell_paints matrix module_size border y x v img2 Hv Hms)
    as (img3 & Hrun & Hp).
  exists img3. split; [done|].
  eapply paints_ext; [|exact Hp]. intros i j. unfold dark. by rewrite Hv.
Qed.

Lemma Image_new_spec w h c :
  0 ≤ w → 0 ≤ h →
  ∃ img, Image_new w h c = Returned img ∧ width img = w ∧ height img = h ∧
         length <$> rows img = replicate (Z.to_nat h) (Z.to_nat w) ∧
         ∀ i j, px img i j =
                if bool_decide (i < Z.to_nat w)%nat && bool_decide (j < Z.to_nat h)%nat
                then Some c else None.
Proof.
  intros Hw Hh. unfold Image_new.
  destruct (Z.ltb_spec w 0); [lia|]. destruct (Z.ltb_spec h 0); [lia|]. simpl.
  eexists. split; [done|]. repeat split; simpl.
  - by rewrite fmap_replicate, length_replicate.
  - intros i j. unfold px. simpl.
    destruct (decide (j < Z.to_nat h)%nat) as [Hj|Hj].
    + rewrite lookup_replicate_2 by done. simpl.
      rewrite (bool_decide_eq_true_2 (j < _)%nat) by done.
      destruct (decide (i < Z.to_nat w)%nat) as [Hi|Hi].
      * rewrite lookup_replicate_2 by done.
        by rewrite bool_decide_eq_true_2.
      * rewrite (proj1 (lookup_replicate_None _ _ _)) by lia.
        by rewrite bool_decide_eq_false_2.
    + rewrite (proj1 (lookup_replicate_None _ _ _)) by lia. simpl.
      rewrite (bool_decide_eq_false_2 (j < _)%nat) by done.
      by rewrite andb_false_r.
Qed.

(** The rows of the matrix are at least as long as the matrix is high:
    every cell the loops read is there. *)
Lemma cells_present matrix :
  Forall (λ row, (length matrix ≤ length row)%nat) matrix →
  ∀ y x, (y < length matrix)%nat → (x < length matrix)%nat →
         is_Some (cell matrix y x).
Proof.
  intros Hrows y x Hy Hx. unfold cell.
  destruct (lookup_lt_is_Some_2 matrix y Hy) as [row Hrow].
  rewrite Hrow. simpl. apply lookup_lt_is_Some_2.
  rewrite Forall_lookup in Hrows. specialize (Hrows y row Hrow). simpl in Hrows. lia.
Qed.

Lemma render_spec matrix module_size border :
  Forall (λ row, (length matrix ≤ length row)%nat) matrix →
  1 ≤ module_size → 0 ≤ border →
  let s := side (length matrix) module_size border in
  ∃ img, render matrix module_size border = Returned img ∧
         width img = s ∧ height img = s ∧
         length <$> rows img = replicate (Z.to_nat s) (Z.to_nat s) ∧
         ∀ i j, px img i j =
                if bool_decide (i < Z.to_nat s)%nat && bool_decide (j < Z.to_nat s)%nat
                then Some (if covered matrix module_size border i j then Black else White)
                else None.
Proof.
  intros Hrows Hms Hb s. unfold render. fold (side (length matrix) module_size border).
  fold s. assert (0 ≤ s) as Hs by (unfold s, side; nia).
  destruct (Image_new_spec s s White Hs Hs) as (img0 & -> & Hw0 & Hh0 & Hl0 & Hp0).
  simpl.
  destruct (draw_modules_paints matrix module_size border img0
              (cells_present matrix Hrows) Hms) as (img & -> & Hw & Hh & Hl & Hp).
  exists img. repeat split; try congruence.
  intros i j. rewrite Hp, Hp0.
  by destruct (bool_decide (i < _)%nat && bool_decide (j < _)%nat).
Qed.

Lemma square_wide matrix :
  square matrix → Forall (λ row, (length matrix ≤ length row)%nat) matrix.
Proof. unfold square. intros H. eapply Forall_impl; [exact H|]. by intros row ->. Qed.

(** What a call does once the in-memory rendering is known. *)
Lemma matrix_to_image_run matrix filename module_size border w :
  matrix ≠ [] →
  matrix_to_image matrix filename module_size border w =
  let w1 := mkWorld (files w) (writable w) (torn w) (removable w)
              (stdout w ++ [creating_line (length matrix) module_size border]) in
  match render matrix module_size border with
  | Returned img =>
      if writable w filename then
        (mkWorld (<[filename := ImageFile img]> (files w))
           (writable w) (torn w) (removable w)
           (stdout w1 ++ ["Saved QR code as " +:+ filename]), Returned true)
      else (w1, Raised (OSError filename))
  | Raised e => (w1, Raised e)
  end.
Proof.
  intros Hne. destruct matrix as [|row matrix]; [done|].
  unfold matrix_to_image, creating_line, side.
  unfold mbind, Py_bind, print, lift, save, write_file, mret, Py_ret. simpl.
  destruct (render _ _ _) as [img|e]; simpl; [|done].
  by destruct (writable w filename).
Qed.

(** ** Geometry of the modules *)

Lemma in_module_spec module_size border y x i j :
  in_module module_size border y x i j = true ↔
  (Z.of_nat x + border) * module_size ≤ Z.of_nat i
    ≤ (Z.of_nat x + border) * module_size + module_size - 1 ∧
  (Z.of_nat y + border) * module_size ≤ Z.of_nat j
    ≤ (Z.of_nat y + border) * module_size + module_size - 1.
Proof.
  unfold in_module, in_rect. rewrite !andb_true_iff, !Z.leb_le. lia.
Qed.

Lemma covered_spec matrix module_size border i j :
  covered matrix module_size border i j = true ↔
  ∃ y x, (y < length matrix)%nat ∧ (x < length matrix)%nat ∧
         dark matrix y x = true ∧ in_module module_size border y x i j = true.
Proof.
  unfold covered. rewrite existsb_exists. split.
  - intros (y & Hy & Hex). apply existsb_exists in Hex as (x & Hx & Hc).
    apply andb_true_iff in Hc as [Hd Hm].
    apply list_elem_of_In, elem_of_range in Hy, Hx. by exists y, x.
  - intros (y & x & Hy & Hx & Hd & Hm). exists y. split.
    + by apply list_elem_of_In, elem_of_range.
    + apply existsb_exists. exists x. split.
      * by apply list_elem_of_In, elem_of_range.
      * by rewrite Hd, Hm.
Qed.

(** A pixel lies in the square of at most one module. *)
Lemma in_module_inj module_size border y x y' x' i j :
  1 ≤ module_size →
  in_module module_size border y x i j = true →
  in_module module_size border y' x' i j = true →
  y = y' ∧ x = x'.
Proof.
  intros Hms [Hx Hy]%in_module_spec [Hx' Hy']%in_module_spec.
  split.
  - destruct (Nat.lt_trichotomy y y') as [?|[?|?]]; [|done|]; nia.
  - destruct (Nat.lt_trichotomy x x') as [?|[?|?]]; [|done|]; nia.
Qed.

Lemma pixel_at_px img x y :
  0 ≤ x → 0 ≤ y → pixel_at img x y = px img (Z.to_nat x) (Z.to_nat y).
Proof.
  intros Hx Hy. unfold pixel_at, px.
  destruct (Z.ltb_spec x 0); [lia|]. by destruct (Z.ltb_spec y 0); [lia|].
Qed.

Lemma cell_bounds matrix y x v :
  square matrix → cell matrix y x = Some v →
  (y < length matrix)%nat ∧ (x < length matrix)%nat.
Proof.
  unfold square, cell. intros Hsq Hcell.
  destruct (matrix !! y) as [row|] eqn:Hrow; simpl in Hcell; [|done].
  split; [by eapply lookup_lt_Some|].
  rewrite Forall_lookup in Hsq. rewrite <- (Hsq y row Hrow).
  by eapply lookup_lt_Some.
Qed.

(** The colours of the rendered image, cell by cell and in the quiet zone. *)
Lemma render_pixels matrix module_size border :
  square matrix → 1 ≤ module_size → 0 ≤ border →
  let n := Z.of_nat (length matrix) in
  ∃ img,
    render matrix module_size border = Returned img ∧
    (∀ y x v dx dy,
       cell matrix y x = Some v →
       0 ≤ dx < module_size → 0 ≤ dy < module_size →
       pixel_at img ((Z.of_nat x + border) * module_size + dx)
                    ((Z.of_nat y + border) * module_size + dy)
       = Some (if 0 <? v then Black else White)) ∧
    (∀ qx qy,
       0 ≤ qx < (n + 2 * border) * module_size →
       0 ≤ qy < (n + 2 * border) * module_size →
       qx < border * module_size ∨ (n + border) * module_size ≤ qx ∨
       qy < border * module_size ∨ (n + border) * module_size ≤ qy →
       pixel_at img qx qy = Some White).
Proof.
  intros Hsq Hms Hb n.
  destruct (render_spec matrix module_size border (square_wide _ Hsq) Hms Hb)
    as (img & Hrender & _ & _ & _ & Hpx).
  unfold side in Hpx. fold n in Hpx.
  exists img. split; [done|]. split.
  - intros y x v dx dy Hcell Hdx Hdy.
    destruct (cell_bounds _ _ _ _ Hsq Hcell) as [Hy Hx].
    rewrite pixel_at_px by nia. rewrite Hpx.
    rewrite !bool_decide_eq_true_2 by (unfold n; nia). simpl. f_equal.
    destruct (0 <? v) eqn:Hv.
    + rewrite (proj2 (covered_spec _ _ _ _ _)); [done|].
      exists y, x. repeat split; try done.
      * unfold dark. by rewrite Hcell.
      * apply in_module_spec. nia.
    + destruct (covered _ _ _ _ _) eqn:Hc; [|done].
      apply covered_spec in Hc as (y' & x' & _ & _ & Hd & Hm).
      assert (in_module module_size border y x
                (Z.to_nat ((Z.of_nat x + border) * module_size + dx))
                (Z.to_nat ((Z.of_nat y + border) * module_size + dy)) = true) as Hm'
        by (apply in_module_spec; nia).
      destruct (in_module_inj _ _ _ _ _ _ _ _ Hms Hm Hm') as [-> ->].
      unfold dark in Hd. rewrite Hcell in Hd. congruence.
  - intros qx qy Hqx Hqy Hquiet.
    rewrite pixel_at_px by lia. rewrite Hpx.
    rewrite !bool_decide_eq_true_2 by lia. simpl. f_equal.
    destruct (covered _ _ _ _ _) eqn:Hc; [|done].
    apply covered_spec in Hc as (y' & x' & Hy' & Hx' & _ & Hm).
    apply in_module_spec in Hm. unfold n in *. nia.
Qed.

(** A successful call leaves the rendered image under the file name. *)
Lemma matrix_to_image_saves matrix filename module_size border w img :
  matrix ≠ [] → render matrix module_size border = Returned img →
  writable w filename = true →
  let r := matrix_to_image matrix filename module_size border w in
  r.2 = Returned true ∧ files r.1 !! filename = Some (ImageFile img).
Proof.
  intros Hne Hrender Hw. rewrite matrix_to_image_run by done. simpl.
  rewrite Hrender, Hw. simpl. split; [done | apply lookup_insert_eq].
Qed.

(** C1. For a non-empty square matrix and a valid configuration the
    rendering succeeds, and in the image (the one saved under the file
    name when the file can be written): every pixel of the square of side
    [module_size] whose top-left corner is
    [((x+border)*module_size, (y+border)*module_size)] is black when cell
    (row [y], column [x]) is positive and white when it is not, and every
    pixel of the quiet zone is white. *)
Theorem module_alignment matrix filename module_size border w :
  matrix ≠ [] → square matrix → 1 ≤ module_size → 0 ≤ border →
  let n := Z.of_nat (length matrix) in
  ∃ img,
    render matrix module_size border = Returned img ∧
    (writable w filename = true →
     let r := matrix_to_image matrix filename module_size border w in
     r.2 = Returned true ∧ files r.1 !! filename = Some (ImageFile img)) ∧
    (∀ y x v dx dy,
       cell matrix y x = Some v →
       0 ≤ dx < module_size → 0 ≤ dy < module_size →
       pixel_at img ((Z.of_nat x + border) * module_size + dx)
                    ((Z.of_nat y + border) * module_size + dy)
       = Some (if 0 <? v then Black else White)) ∧
    (∀ qx qy,
       0 ≤ qx < (n + 2 * border) * module_size →
       0 ≤ qy < (n + 2 * border) * module_size →
       qx < border * module_size ∨ (n + border) * module_size ≤ qx ∨
       qy < border * module_size ∨ (n + border) * module_size ≤ qy →
       pixel_at img qx qy = Some White).
Proof.
  intros Hne Hsq Hms Hb n.
  destruct (render_pixels matrix module_size border Hsq Hms Hb)
    as (img & Hrender & Hcells & Hquiet).
  exists img. split; [done|]. split; [|by split].
  intros Hw. by apply matrix_to_image_saves.
Qed.

Lemma checker3_square : square checker3.
Proof. unfold square, checker3. repeat constructor. Qed.

Lemma module_alignment_witness :
  ∃ img,
    render checker3 10 1 = Returned img ∧
    (writable fresh_world "qr.png" = true →
     let r := matrix_to_image checker3 "qr.png" 10 1 fresh_world in
     r.2 = Returned true ∧ files r.1 !! "qr.png" = Some (ImageFile img)) ∧
    (∀ y x v dx dy,
       cell checker3 y x = Some v →
       0 ≤ dx < 10 → 0 ≤ dy < 10 →
       pixel_at img ((Z.of_nat x + 1) * 10 + dx) ((Z.of_nat y + 1) * 10 + dy)
       = Some (if 0 <? v then Black else White)) ∧
    (∀ qx qy,
       0 ≤ qx < (3 + 2 * 1) * 10 → 0 ≤ qy < (3 + 2 * 1) * 10 →
       qx < 1 * 10 ∨ (3 + 1) * 10 ≤ qx ∨ qy < 1 * 10 ∨ (3 + 1) * 10 ≤ qy →
       pixel_at img qx qy = Some White).
Proof.
  apply (module_alignment checker3 "qr.png" 10 1 fresh_world);
    [done | exact checker3_square | lia | lia].
Defined.

(** The scenario of the specification, computed: a 50 by 50 image, the
    squares of the dark corner cell and of the dark centre cell black,
    the border square at the origin white. *)
Example concrete_scenario :
  ∃ img, render checker3 10 1 = Returned img ∧
         (width img, height img) = (50, 50) ∧
         (∀ dx dy, dx ∈ range 10 → dy ∈ range 10 →
            pixel_at img (10 + Z.of_nat dx) (10 + Z.of_nat dy) = Some Black ∧
            pixel_at img (20 + Z.of_nat dx) (20 + Z.of_nat dy) = Some Black ∧
            pixel_at img (0 + Z.of_nat dx) (0 + Z.of_nat dy) = Some White).
Proof.
  eexists. split; [vm_compute; reflexivity|]. split; [done|].
  intros dx dy Hdx%elem_of_range Hdy%elem_of_range.
  repeat (destruct dx as [|dx]; [|try (exfalso; lia)]);
    repeat (destruct dy as [|dy]; [|try (exfalso; lia)]); done.
Qed.

(** C2. For a non-empty square matrix and a valid configuration the
    rendered image (the one saved when the file can be written) is
    square: width and height both equal [(N + 2*border) * module_size],
    and the pixel buffer has that many rows of that many pixels. *)
Theorem image_dimensions matrix filename module_size border w :
  matrix ≠ [] → square matrix → 1 ≤ module_size → 0 ≤ border →
  let s := (Z.of_nat (length matrix) + 2 * border) * module_size in
  ∃ img,
    render matrix module_size border = Returned img ∧
    (writable w filename = true →
     let r := matrix_to_image matrix filename module_size border w in
     r.2 = Returned true ∧ files r.1 !! filename = Some (ImageFile img)) ∧
    width img = s ∧ height img = s ∧
    Z.of_nat (length (rows img)) = s ∧
    Forall (λ row, Z.of_nat (length row) = s) (rows img).
Proof.
  intros Hne Hsq Hms Hb s.
  destruct (render_spec matrix module_size border (square_wide _ Hsq) Hms Hb)
    as (img & Hrender & Hw & Hh & Hl & _).
  unfold side in *. fold s in Hw, Hh, Hl.
  assert (0 ≤ s) as Hs by (unfold s; nia).
  exists img. split; [done|]. split; [|split; [done|split; [done|split]]].
  - intros Hwr. by apply matrix_to_image_saves.
  - apply (f_equal length) in Hl.
    rewrite length_fmap, length_replicate in Hl. lia.
  - apply Forall_lookup. intros j row Hrow.
    apply (f_equal (λ l, l !! j)) in Hl.
    rewrite list_lookup_fmap, Hrow in Hl. simpl in Hl. symmetry in Hl.
    apply lookup_replicate in Hl as [Hl _]. lia.
Qed.

Lemma image_dimensions_witness :
  let s := (Z.of_nat (length checker3) + 2 * 1) * 10 in
  ∃ img,
    render checker3 10 1 = Returned img ∧
    (writable fresh_world "qr.png" = true →
     let r := matrix_to_image checker3 "qr.png" 10 1 fresh_world in
     r.2 = Returned true ∧ files r.1 !! "qr.png" = Some (ImageFile img)) ∧
    width img = s ∧ height img = s ∧
    Z.of_nat (length (rows img)) = s ∧
    Forall (λ row, Z.of_nat (length row) = s) (rows img).
Proof.
  apply (image_dimensions checker3 "qr.png" 10 1 fresh_world);
    [done | exact checker3_square | lia | lia].
Defined.

(** ** The loops read the matrix only through the sign of its cells *)

Lemma draw_cell_cell matrix module_size border y x img :
  draw_cell matrix module_size border y x img =
  match cell matrix y x with
  | Some v =>
      if 0 <? v then
        let img_x := (Z.of_nat x + border) * module_size in
        let img_y := (Z.of_nat y + border) * module_size in
        rectangle img img_x img_y (img_x + module_size - 1) (img_y + module_size - 1) Black
      else Returned img
  | None => Raised IndexError
  end.
Proof.
  unfold draw_cell, cell, index.
  destruct (matrix !! y) as [row|]; simpl; [|done].
  by destruct (row !! x).
Qed.

Lemma draw_cell_ext m1 m2 module_size border y x img :
  sign_at m1 y x = sign_at m2 y x →
  draw_cell m1 module_size border y x img = draw_cell m2 module_size border y x img.
Proof.
  unfold sign_at. intros Hs. rewrite !draw_cell_cell.
  destruct (cell m1 y x) as [v1|], (cell m2 y x) as [v2|]; simpl in Hs; try done.
  injection Hs as ->. done.
Qed.

Lemma draw_modules_ext m1 m2 module_size border img :
  length m1 = length m2 →
  (∀ y x, (y < length m1)%nat → (x < length m1)%nat → sign_at m1 y x = sign_at m2 y x) →
  draw_modules m1 module_size border img = draw_modules m2 module_size border img.
Proof.
  intros Hlen Hs. unfold draw_modules. rewrite <- Hlen.
  apply for_each_ext. intros y img1 Hy%elem_of_range.
  apply for_each_ext. intros x img2 Hx%elem_of_range.
  apply draw_cell_ext. by apply Hs.
Qed.

Lemma render_ext m1 m2 module_size border :
  length m1 = length m2 →
  (∀ y x, (y < length m1)%nat → (x < length m1)%nat → sign_at m1 y x = sign_at m2 y x) →
  render m1 module_size border = render m2 module_size border.
Proof.
  intros Hlen Hs. unfold render. rewrite <- Hlen.
  destruct (Image_new _ _ _) as [img|e]; simpl; [|done].
  by apply draw_modules_ext.
Qed.

Lemma matrix_to_image_ext m1 m2 filename module_size border w :
  length m1 = length m2 →
  (∀ y x, (y < length m1)%nat → (x < length m1)%nat → sign_at m1 y x = sign_at m2 y x) →
  matrix_to_image m1 filename module_size border w =
  matrix_to_image m2 filename module_size border w.
Proof.
  intros Hlen Hs.
  destruct m1 as [|r1 m1], m2 as [|r2 m2]; try done.
  rewrite !matrix_to_image_run by done.
  by rewrite (render_ext _ _ _ _ Hlen Hs), Hlen.
Qed.

Lemma same_signs_sign_at m1 m2 y x :
  same_signs m1 m2 → sign_at m1 y x = sign_at m2 y x.
Proof.
  unfold same_signs, sign_at, cell. intros Hs.
  pose proof (proj1 (Forall2_lookup _ _ _) Hs y) as Hrow.
  destruct Hrow as [row1 row2 Hrow|]; simpl; [|done].
  pose proof (proj1 (Forall2_lookup _ _ _) Hrow x) as Hv.
  destruct Hv as [v1 v2 Hv|]; simpl; [by rewrite Hv | done].
Qed.

(** C8. Two matrices of the same shape whose corresponding cells agree
    on being positive give the same run of [matrix_to_image] under the
    same file name, configuration and world: the same outcome, the same
    output and the same saved image.  And for a square matrix under a
    valid configuration the rendering succeeds, it is the image that
    [matrix_to_image] saves under the file name (when the matrix has a
    row and the file can be written), and in it a cell that is zero or
    negative is white (background), a positive cell is black
    (foreground). *)
Theorem sign_determines_image :
  (∀ m1 m2 filename module_size border w,
     same_signs m1 m2 →
     render m1 module_size border = render m2 module_size border ∧
     matrix_to_image m1 filename module_size border w =
     matrix_to_image m2 filename module_size border w) ∧
  (∀ matrix filename module_size border w,
     square matrix → 1 ≤ module_size → 0 ≤ border →
     ∃ img, render matrix module_size border = Returned img ∧
       (matrix ≠ [] → writable w filename = true →
        let r := matrix_to_image matrix filename module_size border w in
        r.2 = Returned true ∧ files r.1 !! filename = Some (ImageFile img)) ∧
       ∀ y x v dx dy,
         cell matrix y x = Some v →
         0 ≤ dx < module_size → 0 ≤ dy < module_size →
         pixel_at img ((Z.of_nat x + border) * module_size + dx)
                      ((Z.of_nat y + border) * module_size + dy)
         = Some (if 0 <? v then Black else White)).
Proof.
  split.
  - intros m1 m2 filename module_size border w Hs.
    pose proof (Forall2_length _ _ _ Hs) as Hlen.
    split; [apply render_ext | apply matrix_to_image_ext]; try done;
      intros y x _ _; by apply same_signs_sign_at.
  - intros matrix filename module_size border w Hsq Hms Hb.
    destruct (render_pixels matrix module_size border Hsq Hms Hb)
      as (img & Hrender & Hcells & _).
    exists img. split; [done|]. split; [|done].
    intros Hne Hw. by apply matrix_to_image_saves.
Qed.

Lemma sign_determines_image_witness :
  (render checker3 10 1 = render [[7; 0; 2]; [-5; 9; 0]; [1; -1; 3]] 10 1 ∧
   matrix_to_image checker3 "qr.png" 10 1 fresh_world =
   matrix_to_image [[7; 0; 2]; [-5; 9; 0]; [1; -1; 3]] "qr.png" 10 1 fresh_world) ∧
  (∃ img, render [[7; 0; 2]; [-5; 9; 0]; [1; -1; 3]] 10 1 = Returned img ∧
     (let r := matrix_to_image [[7; 0; 2]; [-5; 9; 0]; [1; -1; 3]] "qr.png" 10 1
                 fresh_world in
      r.2 = Returned true ∧ files r.1 !! "qr.png" = Some (ImageFile img)) ∧
     ∀ y x v dx dy,
       cell [[7; 0; 2]; [-5; 9; 0]; [1; -1; 3]] y x = Some v →
       0 ≤ dx < 10 → 0 ≤ dy < 10 →
       pixel_at img ((Z.of_nat x + 1) * 10 + dx) ((Z.of_nat y + 1) * 10 + dy)
       = Some (if 0 <? v then Black else White)).
Proof.
  split.
  - apply (proj1 sign_determines_image). repeat constructor.
  - destruct (proj2 sign_determines_image [[7; 0; 2]; [-5; 9; 0]; [1; -1; 3]]
                "qr.png" 10 1 fresh_world) as (img & Hrender & Hsave & Hcells);
      [repeat constructor | lia | lia |].
    exists img. split; [exact Hrender|]. split; [|exact Hcells].
    apply Hsave; [discriminate | reflexivity].
Defined.

(** ** Malformed matrices *)

Lemma draw_cell_raises matrix module_size border y x img e :
  1 ≤ module_size →
  draw_cell matrix module_size border y x img = Raised e → e = IndexError.
Proof.
  intros Hms. rewrite draw_cell_cell.
  destruct (cell matrix y x) as [v|]; [|congruence].
  destruct (0 <? v); [|done]. simpl.
  destruct (rectangle_paints img ((Z.of_nat x + border) * module_size)
              ((Z.of_nat y + border) * module_size)
              ((Z.of_nat x + border) * module_size + module_size - 1)
              ((Z.of_nat y + border) * module_size + module_size - 1))
    as (img' & -> & _); [lia | lia | done].
Qed.

Lemma draw_modules_short_row matrix module_size border img :
  1 ≤ module_size →
  Exists (λ row, (length row < length matrix)%nat) matrix →
  draw_modules matrix module_size border img = Raised IndexError.
Proof.
  intros Hms (row & Hin & Hshort)%Exists_exists.
  apply list_elem_of_lookup in Hin as [y Hy].
  destruct (draw_modules matrix module_size border img) as [img'|e] eqn:Hrun;
    unfold draw_modules in Hrun.
  - exfalso.
    destruct (for_each_Returned_inv _ _ _ _ Hrun y) as (img1 & img2 & Hinner).
    { apply elem_of_range. by eapply lookup_lt_Some. }
    destruct (for_each_Returned_inv _ _ _ _ Hinner (length row)) as (img3 & img4 & Hcell).
    { by apply elem_of_range. }
    rewrite draw_cell_cell in Hcell. unfold cell in Hcell. rewrite Hy in Hcell.
    simpl in Hcell. by rewrite (lookup_ge_None_2 row (length row)) in Hcell.
  - f_equal.
    destruct (for_each_Raised_inv _ _ _ _ Hrun) as (y' & img1 & _ & Hinner).
    destruct (for_each_Raised_inv _ _ _ _ Hinner) as (x' & img2 & _ & Hcell).
    by eapply draw_cell_raises.
Qed.

Lemma sign_at_take matrix y x :
  (x < length matrix)%nat →
  sign_at matrix y x = sign_at (take (length matrix) <$> matrix) y x.
Proof.
  intros Hx. unfold sign_at, cell. rewrite list_lookup_fmap.
  destruct (matrix !! y) as [row|]; simpl; [|done].
  by rewrite lookup_take_lt.
Qed.

Lemma take_rows_square matrix :
  Forall (λ row, (length matrix ≤ length row)%nat) matrix →
  square (take (length matrix) <$> matrix).
Proof.
  intros Hrows. unfold square. rewrite length_fmap.
  apply Forall_fmap. eapply Forall_impl; [exact Hrows|].
  intros row Hrow. simpl. by apply length_take_le.
Qed.

(** C3, as the code has it.  An empty matrix is refused: a diagnostic is
    printed, [False] is returned and nothing is written.  Under a valid
    configuration a matrix with a row shorter than the number of rows
    makes [IndexError] escape, and nothing is written.  Rows longer than
    the number of rows are not refused: the call runs exactly as on the
    matrix cut to its first [N] columns (a square one), and returns
    [True] when the configuration is valid and the file can be written. *)
Theorem malformed_matrix :
  (∀ filename module_size border w,
     matrix_to_image [] filename module_size border w =
     (mkWorld (files w) (writable w) (torn w) (removable w)
        (stdout w ++ ["No matrix data provided"]),
      Returned false)) ∧
  (∀ matrix filename module_size border w,
     1 ≤ module_size → 0 ≤ border →
     Exists (λ row, (length row < length matrix)%nat) matrix →
     let r := matrix_to_image matrix filename module_size border w in
     r.2 = Raised IndexError ∧ files r.1 = files w) ∧
  (∀ matrix filename module_size border w,
     Forall (λ row, (length matrix ≤ length row)%nat) matrix →
     let cut := take (length matrix) <$> matrix in
     square cut ∧
     matrix_to_image matrix filename module_size border w =
     matrix_to_image cut filename module_size border w ∧
     (matrix ≠ [] → 1 ≤ module_size → 0 ≤ border →
      writable w filename = true →
      (matrix_to_image matrix filename module_size border w).2 = Returned true)).
Proof.
  split; [done|]. split.
  - intros matrix filename module_size border w Hms Hb Hshort.
    assert (matrix ≠ []) as Hne by (intros ->; by apply Exists_nil in Hshort).
    rewrite matrix_to_image_run by done. simpl.
    unfold render.
    destruct (Image_new_spec (side (length matrix) module_size border)
                (side (length matrix) module_size border) White)
      as (img0 & Hnew & _); [unfold side; nia | unfold side; nia |].
    unfold side in Hnew. rewrite Hnew. simpl.
    by rewrite draw_modules_short_row.
  - intros matrix filename module_size border w Hrows cut.
    split; [by apply take_rows_square|].
    assert (matrix_to_image matrix filename module_size border w =
            matrix_to_image cut filename module_size border w) as Heq.
    { apply matrix_to_image_ext; [unfold cut; by rewrite length_fmap|].
      intros y x _ Hx. by apply sign_at_take. }
    split; [done|].
    intros Hne Hms Hb Hw.
    destruct (render_spec matrix module_size border Hrows Hms Hb)
      as (img & Hrender & _).
    by apply (matrix_to_image_saves matrix filename module_size border w img).
Qed.

Lemma malformed_matrix_witness :
  (let r := matrix_to_image ragged "qr.png" 10 4 fresh_world in
   r.2 = Raised IndexError ∧ files r.1 = files fresh_world) ∧
  (let cut := take (length wide_row) <$> wide_row in
   square cut ∧
   matrix_to_image wide_row "qr.png" 10 4 fresh_world =
   matrix_to_image cut "qr.png" 10 4 fresh_world ∧
   (wide_row ≠ [] → 1 ≤ 10 → 0 ≤ 4 →
    writable fresh_world "qr.png" = true →
    (matrix_to_image wide_row "qr.png" 10 4 fresh_world).2 = Returned true)).
Proof.
  split.
  - apply (proj1 (proj2 malformed_matrix) ragged "qr.png" 10 4 fresh_world);
      [lia | lia |].
    apply Exists_cons_tl, Exists_cons_hd. simpl. lia.
  - apply (proj2 (proj2 malformed_matrix) wide_row "qr.png" 10 4 fresh_world).
    repeat constructor.
Defined.

(** C3 as the specification words it fails: this matrix has one row of
    two cells, so it is not square and its row disagrees with the size
    [N = 1]; the call nevertheless returns [True] and writes the image. *)
Lemma malformed_matrix_accepted :
  ¬ square wide_row ∧
  Exists (λ row, length row ≠ length wide_row) wide_row ∧
  let r := matrix_to_image wide_row "qr.png" 10 4 fresh_world in
  r.2 = Returned true ∧ is_Some (files r.1 !! "qr.png").
Proof.
  split; [|split; [|split]].
  - intros Hsq. by inversion Hsq.
  - by apply Exists_cons_hd.
  - by vm_compute.
  - vm_compute. eauto.
Qed.

(** ** Saving the image *)

(** C7, as the code has it.  [matrix_to_image] returns [False] for an
    empty matrix and [True] once the rendered image is saved; when the
    file cannot be written, the error raised by [save] escapes to the
    caller and no boolean is returned. *)
Theorem save_failure_propagates matrix filename module_size border w img :
  matrix ≠ [] → render matrix module_size border = Returned img →
  let r := matrix_to_image matrix filename module_size border w in
  (writable w filename = true →
   r.2 = Returned true ∧ files r.1 !! filename = Some (ImageFile img)) ∧
  (writable w filename = false →
   r.2 = Raised (OSError filename) ∧ files r.1 = files w) ∧
  (matrix_to_image [] filename module_size border w).2 = Returned false.
Proof.
  intros Hne Hrender r. split; [|split; [|done]].
  - intros Hw. by apply matrix_to_image_saves.
  - intros Hw. unfold r. rewrite matrix_to_image_run by done. simpl.
    by rewrite Hrender, Hw.
Qed.

Lemma save_failure_propagates_witness :
  let r := matrix_to_image [[1]] "qr.png" 1 0 readonly_world in
  (writable readonly_world "qr.png" = true →
   r.2 = Returned true ∧
   files r.1 !! "qr.png" = Some (ImageFile (mkImage 1 1 [[Black]]))) ∧
  (writable readonly_world "qr.png" = false →
   r.2 = Raised (OSError "qr.png") ∧ files r.1 = files readonly_world) ∧
  (matrix_to_image [] "qr.png" 1 0 readonly_world).2 = Returned false.
Proof.
  apply (save_failure_propagates [[1]] "qr.png" 1 0 readonly_world
           (mkImage 1 1 [[Black]])); [done | reflexivity].
Defined.

(** C7 as the specification words it fails: where the file cannot be
    written the call does not return a boolean, the error escapes. *)
Lemma save_failure_escapes :
  (matrix_to_image checker3 "qr.png" 10 1 readonly_world).2
  = Raised (OSError "qr.png").
Proof. by vm_compute. Qed.

(** ** Writing a text file *)

Lemma write_file_run path enc text w :
  write_file path enc text w =
  if writable w path
  then (mkWorld (<[path := TextFile enc text]> (files w))
          (writable w) (torn w) (removable w) (stdout w), Returned ())
  else
    match torn w path with
    | Some n =>
        (mkWorld (<[path := TextFile enc (String.substring 0 n text)]> (files w))
           (writable w) (torn w) (removable w) (stdout w),
         Raised (OSError path))
    | None => (w, Raised (OSError path))
    end.
Proof.
  unfold write_file, open_w, f_write, mbind, Py_bind.
  destruct (writable w path) eqn:Hw; simpl.
  - rewrite Hw. by rewrite insert_insert_eq.
  - destruct (torn w path) as [n|] eqn:Ht; simpl; [|done].
    rewrite Hw, Ht. by rewrite insert_insert_eq.
Qed.

(** ** Strings *)

Lemma string_app_cons c (s t : string) : String c s +:+ t = String c (s +:+ t).
Proof. reflexivity. Qed.

Lemma string_app_assoc (s1 s2 s3 : string) :
  (s1 +:+ s2) +:+ s3 = s1 +:+ (s2 +:+ s3).
Proof.
  induction s1 as [|c s1 IH]; [done|]. by rewrite !string_app_cons, IH.
Qed.

Lemma string_app_nil_r (s : string) : s +:+ EmptyString = s.
Proof.
  induction s as [|c s IH]; [done|]. by rewrite string_app_cons, IH.
Qed.

(** ** The decoder *)

Section DecoderProperties.

Context {libs : Libraries}.

(** A world with more lines printed. *)
Local Abbreviation printed w log :=
  (mkWorld (files w) (writable w) (torn w) (removable w) (stdout w ++ log)).

Lemma printed_nil w : printed w [] = w.
Proof. destruct w. simpl. by rewrite app_nil_r. Qed.

Lemma printed_printed w log1 log2 :
  printed (printed w log1) log2 = printed w (log1 ++ log2).
Proof. simpl. by rewrite app_assoc. Qed.

(** The call returns a list: empty, or the one entry of the detected text. *)
Lemma decode_qr_image_run image_path w :
  ∃ log results,
    decode_qr_image image_path w = (printed w log, Returned results) ∧
    data <$> results = option_list (detected (files w) image_path) ∧
    (length results ≤ 1)%nat.
Proof.
  unfold decode_qr_image, detected, try_except, read_fs.
  unfold mbind, Py_bind, mret, Py_ret, print, lift. simpl.
  destruct (cv2_imread image_path (files w)) as [[image|]|e]; simpl.
  - destruct (detectAndDecode image) as [[text pts]|e]; simpl.
    + exists []. rewrite printed_nil.
      destruct (truthy text); eexists; (split; [done|]); simpl; split; (done || lia).
    + eexists _, []. split; [done|]. simpl. split; (done || lia).
  - eexists _, []. split; [done|]. simpl. split; (done || lia).
  - eexists _, []. split; [done|]. simpl. split; (done || lia).
Qed.

Lemma report_results_run verbose (results : list DecodeResult) :
  ∀ (g : nat → nat) acc w,
  ∃ log,
    for_each_py (imap (λ i result, (g i, result)) results) (report_result verbose) acc w
    = (printed w log, Returned (acc ++ (data <$> results))) ∧
    ∀ text, text ∈ data <$> results → ("Text: " +:+ text) ∈ log.
Proof.
  induction results as [|result results IH]; intros g acc w.
  - exists []. simpl. rewrite !app_nil_r.
    split; [by destruct w | by intros text ?%elem_of_nil].
  - cbn [for_each_py imap fmap list_fmap].
    assert (∃ log1, report_result verbose (g 0%nat, result) acc w
                    = (printed w log1, Returned (acc ++ [data result])) ∧
                    ("Text: " +:+ data result) ∈ log1) as (log1 & Hrun1 & Hin1).
    { unfold report_result, when, mbind, Py_bind, mret, Py_ret, print. simpl.
      destruct verbose; simpl.
      - destruct (points result) as [pts|]; simpl;
          [destruct (points_nonempty pts); simpl|];
          rewrite <- ?app_assoc; simpl;
          (eexists; split; [reflexivity|]);
          rewrite !elem_of_cons; auto 10.
      - eexists; split; [reflexivity|]. by left. }
    destruct (IH (g ∘ S) (acc ++ [data result]) (printed w log1)) as (log2 & Hrun2 & Hin2).
    exists (log1 ++ log2). split.
    + unfold mbind at 1, Py_bind. rewrite Hrun1.
      rewrite printed_printed in Hrun2. etrans; [exact Hrun2|].
      by rewrite <- app_assoc.
    + intros text [->|Hin]%elem_of_cons; apply elem_of_app; auto.
Qed.

Lemma decode_path_run verbose image_path acc w :
  ∃ log,
    decode_path verbose image_path acc w
    = (printed w log, Returned (acc ++ option_list (payload (files w) image_path))) ∧
    (files w !! image_path = None → log = ["File not found: " +:+ image_path]) ∧
    (∀ text, payload (files w) image_path = Some text → ("Text: " +:+ text) ∈ log).
Proof.
  unfold decode_path, payload, os_path_exists, read_fs.
  unfold mbind at 1, Py_bind. simpl.
  destruct (files w !! image_path) as [d|] eqn:Hfile.
  - rewrite bool_decide_eq_true_2 by eauto. simpl.
    assert (∃ log0, when verbose (print (nl +:+ "--- Decoding: " +:+ image_path +:+ " ---")) w
                    = (printed w log0, Returned ())) as (log0 & Hrun0).
    { destruct verbose; simpl; [by eexists|]. exists []. by rewrite printed_nil. }
    unfold mbind at 1, Py_bind. rewrite Hrun0.
    destruct (decode_qr_image_run image_path (printed w log0))
      as (log1 & results & Hrun1 & Hdata & Hlen).
    simpl in Hdata.
    unfold mbind at 1, Py_bind. rewrite Hrun1, printed_printed.
    destruct results as [|result results].
    + destruct (detected (files w) image_path) as [text0|]; [done|].
      simpl. rewrite app_nil_r.
      assert (∃ log2, when verbose (print "No QR codes found in this image")
                        (printed w (log0 ++ log1))
                      = (printed w (log0 ++ log1 ++ log2), Returned ())) as (log2 & Hrun2).
      { destruct verbose; simpl.
        - eexists. unfold print. simpl. by rewrite <- !app_assoc.
        - exists []. by rewrite !app_nil_r. }
      unfold mbind, Py_bind. rewrite Hrun2. unfold mret, Py_ret.
      eexists. split; [reflexivity|]. split; [done|]. done.
    + destruct (report_results_run verbose (result :: results) id acc
                  (printed w (log0 ++ log1))) as (log2 & Hrun2 & Hin2).
      unfold id in Hrun2. rewrite Hrun2, printed_printed.
      rewrite Hdata in *.
      eexists. split; [reflexivity|]. split; [done|].
      intros text Htext. rewrite Htext in Hin2.
      apply elem_of_app. right. apply Hin2. simpl. by left.
  - rewrite bool_decide_eq_false_2 by (intros [? ?]; done). simpl.
    unfold mbind, Py_bind, print, mret, Py_ret. simpl. rewrite app_nil_r.
    eexists. split; [reflexivity|]. split; [done|]. done.
Qed.

Lemma decode_loop_run verbose paths :
  ∀ acc w,
  ∃ log,
    for_each_py paths (decode_path verbose) acc w
    = (printed w log, Returned (acc ++ payloads (files w) paths)) ∧
    (∀ image_path, image_path ∈ paths → files w !! image_path = None →
                   ("File not found: " +:+ image_path) ∈ log) ∧
    (∀ text, text ∈ payloads (files w) paths → ("Text: " +:+ text) ∈ log).
Proof.
  induction paths as [|image_path paths IH]; intros acc w.
  - exists []. cbn [for_each_py]. unfold payloads. simpl. rewrite !app_nil_r.
    split; [by destruct w|]. split; [by intros p ?%elem_of_nil | by intros p ?%elem_of_nil].
  - cbn [for_each_py].
    destruct (decode_path_run verbose image_path acc w) as (log1 & Hrun1 & Hmiss1 & Htext1).
    destruct (IH (acc ++ option_list (payload (files w) image_path)) (printed w log1))
      as (log2 & Hrun2 & Hmiss2 & Htext2).
    simpl in Hrun2, Hmiss2, Htext2.
    exists (log1 ++ log2). split; [|split].
    + unfold mbind, Py_bind. rewrite Hrun1, Hrun2. simpl.
      rewrite <- !app_assoc. unfold payloads. simpl.
      by destruct (payload (files w) image_path).
    + intros p [->|Hin]%elem_of_cons Hnone; apply elem_of_app.
      * left. rewrite (Hmiss1 Hnone). by left.
      * right. by apply Hmiss2.
    + intros text Hin. apply elem_of_app. unfold payloads in Hin. simpl in Hin.
      destruct (payload (files w) image_path) as [text1|] eqn:Hp.
      * apply elem_of_cons in Hin as [->|Hin]; [left; by apply Htext1 | right; by apply Htext2].
      * right. by apply Htext2.
Qed.

Lemma expand_patterns_run patterns w :
  expand_patterns patterns w = (w, Returned (image_files (files w) patterns)).
Proof.
  unfold expand_patterns.
  enough (∀ acc, for_each_py patterns
            (λ pattern image_files,
               if contains "*" pattern || contains "?" pattern
               then matches ← read_fs (λ fs, Returned (glob pattern fs));
                    mret (image_files ++ matches)
               else mret (image_files ++ [pattern])) acc w
          = (w, Returned (acc ++ image_files (files w) patterns))) as H
    by apply (H []).
  induction patterns as [|pattern patterns IH]; intros acc.
  - simpl. by rewrite app_nil_r.
  - cbn [for_each_py]. unfold mbind at 1, Py_bind.
    unfold image_files. cbn [mbind list_bind]. fold (image_files (files w) patterns).
    destruct (contains "*" pattern || contains "?" pattern).
    + unfold mbind at 1, Py_bind, read_fs, mret, Py_ret.
      rewrite IH. by rewrite <- app_assoc.
    + unfold mret at 1, Py_ret. rewrite IH. by rewrite <- app_assoc.
Qed.

(** The whole run of [main], by cases on the expanded paths, the
    output option and the payloads. *)
Lemma main_run args w :
  let paths := image_files (files w) (images args) in
  let texts := payloads (files w) paths in
  let verdict := match texts with
                 | [] => ([nl +:+ "No QR codes were successfully decoded."], 1)
                 | _ => ([], 0)
                 end in
  match paths with
  | [] => main args w = (printed w ["No image files found!"], Returned 1)
  | _ =>
      ∃ log,
        (∀ image_path, image_path ∈ paths → files w !! image_path = None →
                       ("File not found: " +:+ image_path) ∈ log) ∧
        (∀ text, text ∈ texts → ("Text: " +:+ text) ∈ log) ∧
        main args w =
        match output_requested args with
        | Some path =>
            if writable w path then
              (mkWorld (<[path := TextFile Utf8 (output_text texts)]> (files w))
                 (writable w) (torn w) (removable w)
                 (stdout w ++ log ++ [nl +:+ "Decoded text saved to: " +:+ path]
                    ++ verdict.1),
               Returned verdict.2)
            else
              (mkWorld
                 match torn w path with
                 | Some n =>
                     <[path := TextFile Utf8
                                 (String.substring 0 n (output_text texts))]> (files w)
                 | None => files w
                 end
                 (writable w) (torn w) (removable w) (stdout w ++ log),
               Raised (OSError path))
        | None => (printed w (log ++ verdict.1), Returned verdict.2)
        end
  end.
Proof.
  intros paths texts verdict.
  assert (main args w =
          (λ image_files0 : list string,
             match image_files0 with
             | [] => print "No image files found!";; mret 1
             | _ =>
                 all_decoded_text ←
                   for_each_py image_files0 (decode_path (verbose args)) [];
                 match output args with
                 | Some path =>
                     when (truthy path)
                       (write_file path Utf8 (output_text all_decoded_text);;
                        print (nl +:+ "Decoded text saved to: " +:+ path))
                 | None => mret ()
                 end;;
                 match all_decoded_text with
                 | [] =>
                     print (nl +:+ "No QR codes were successfully decoded.");;
                     mret 1
                 | _ => mret 0
                 end
             end) paths w) as ->.
  { unfold main. unfold mbind at 1, Py_bind. by rewrite expand_patterns_run. }
  destruct paths as [|p0 paths0] eqn:Hpaths; [done|].
  destruct (decode_loop_run (verbose args) (p0 :: paths0) [] w)
    as (log & Hrun & Hmiss & Htext).
  exists log. split; [done|]. split; [done|].
  rewrite app_nil_l in Hrun. fold texts in Hrun. clearbody texts.
  unfold mbind at 1, Py_bind. rewrite Hrun.
  unfold output_requested, when.
  destruct (output args) as [path|]; [destruct (truthy path)|].
  - unfold mbind, Py_bind, print, mret, Py_ret. rewrite write_file_run. simpl.
    destruct (writable w path); [|by destruct (torn w path)].
    subst verdict. destruct texts; simpl; by rewrite ?app_nil_r, <- ?app_assoc.
  - unfold mbind, Py_bind, print, mret, Py_ret. simpl.
    subst verdict. destruct texts; simpl; by rewrite ?app_nil_r, <- ?app_assoc.
  - unfold mbind, Py_bind, print, mret, Py_ret. simpl.
    subst verdict. destruct texts; simpl; by rewrite ?app_nil_r, <- ?app_assoc.
Qed.

Lemma output_text_foldr (texts : list string) :
  output_text texts = foldr (λ text rest, text +:+ nl +:+ rest) EmptyString texts.
Proof.
  unfold output_text.
  enough (∀ written,
            foldl (λ written text, written +:+ (text +:+ nl)) written texts
            = written +:+ foldr (λ text rest, text +:+ nl +:+ rest) EmptyString texts)
    as H by apply (H EmptyString).
  induction texts as [|text texts IH]; intros written; simpl.
  - by rewrite string_app_nil_r.
  - by rewrite IH, !string_app_assoc.
Qed.

Lemma split_on_line (text rest : string) :
  contains "010" text = false →
  split_on "010" (text +:+ nl +:+ rest) = text :: split_on "010" rest.
Proof.
  induction text as [|c text IH]; intros Hfree; [done|].
  cbn [contains] in Hfree. apply orb_false_iff in Hfree as [Hc Hfree].
  rewrite string_app_cons. cbn [split_on].
  rewrite (Ascii.eqb_sym c), Hc. by rewrite (IH Hfree).
Qed.

Lemma split_on_lines (texts : list string) :
  Forall (λ text, contains "010" text = false) texts →
  split_on "010" (foldr (λ text rest, text +:+ nl +:+ rest) EmptyString texts)
  = texts ++ [EmptyString].
Proof.
  induction 1 as [|text texts Hfree _ IH]; simpl; [done|].
  by rewrite split_on_line, IH.
Qed.

(** C10. [decode_qr_image] always returns, and returns a list of at most
    one entry; it never raises, whatever the detector library does.  When
    the image cannot be loaded it prints a diagnostic and returns the
    empty list; when the detector finds no text it returns the empty
    list and prints nothing: the returned values are the same, only the
    output differs.  [decode_qr_simple] returns [None] in both cases. *)
Theorem decode_never_raises image_path w :
  (∃ results, (decode_qr_image image_path w).2 = Returned results ∧
              (length results ≤ 1)%nat) ∧
  (∃ text, (decode_qr_simple image_path w).2 = Returned text) ∧
  (cv2_imread image_path (files w) = Returned None →
   decode_qr_image image_path w
   = (printed w ["Could not read image: " +:+ image_path], Returned []) ∧
   decode_qr_simple image_path w
   = (printed w ["Could not read image: " +:+ image_path], Returned None)) ∧
  (∀ image pts,
     cv2_imread image_path (files w) = Returned (Some image) →
     detectAndDecode image = Returned (EmptyString, pts) →
     decode_qr_image image_path w = (w, Returned []) ∧
     decode_qr_simple image_path w = (w, Returned None)).
Proof.
  split; [|split; [|split]].
  - destruct (decode_qr_image_run image_path w) as (log & results & Hrun & _ & Hlen).
    exists results. by rewrite Hrun.
  - destruct (decode_qr_image_run image_path w) as (log & results & Hrun & _ & _).
    unfold decode_qr_simple, mbind, Py_bind. rewrite Hrun.
    destruct results; by eexists.
  - intros Hload.
    unfold decode_qr_simple, decode_qr_image, try_except, read_fs.
    unfold mbind, Py_bind, mret, Py_ret, print, lift. simpl.
    by rewrite Hload.
  - intros image pts Hload Hnone.
    unfold decode_qr_simple, decode_qr_image, try_except, read_fs.
    unfold mbind, Py_bind, mret, Py_ret, print, lift. simpl.
    rewrite Hload. simpl. rewrite Hnone. simpl. by destruct w.
Qed.

(** C5, as the code has it.  Every missing path of the batch gets the
    diagnostic [File not found] and the loop goes on: the payload of
    every path that is there and decodes is reported.  The exit status
    is [0] or [1], and it is [0] exactly when at least one payload was
    decoded and the output file, if one was asked for, could be written
    (when it cannot, the error escapes and the status is [1]). *)
Theorem batch_exit_status args w :
  let paths := image_files (files w) (images args) in
  let texts := payloads (files w) paths in
  let r := run_main args w in
  (∀ image_path, image_path ∈ paths → files w !! image_path = None →
                 ("File not found: " +:+ image_path) ∈ stdout r.1) ∧
  (∀ text, text ∈ texts → ("Text: " +:+ text) ∈ stdout r.1) ∧
  (r.2 = 0 ∨ r.2 = 1) ∧
  (r.2 = 0 ↔
   texts ≠ [] ∧
   ∀ path, output_requested args = Some path → writable w path = true).
Proof.
  intros paths texts r. subst r. unfold run_main.
  pose proof (main_run args w) as Hrun. cbv zeta in Hrun.
  fold paths in Hrun. fold texts in Hrun.
  destruct paths as [|p0 paths0] eqn:Hpaths.
  - rewrite Hrun. simpl. subst texts. unfold payloads. simpl.
    split; [by intros p ?%elem_of_nil|]. split; [by intros p ?%elem_of_nil|].
    split; [by right|]. split; [done | by intros [? _]].
  - destruct Hrun as (log & Hmiss & Htext & ->).
    clearbody texts.
    destruct (output_requested args) as [path|]; [destruct (writable w path) eqn:Hw|];
      simpl.
    + split; [intros p Hin Hnone; rewrite !elem_of_app; auto|].
      split; [intros t Hin; rewrite !elem_of_app; auto|].
      destruct texts; simpl; (split; [auto|]); split; try done.
      * by intros [? _].
      * intros _. split; [done|]. by intros ? [= <-].
    + split; [intros p Hin Hnone; rewrite !elem_of_app; auto|].
      split; [intros t Hin; rewrite !elem_of_app; auto|].
      split; [auto|]. split; [done|].
      intros [_ Hout]. specialize (Hout path eq_refl). congruence.
    + split; [intros p Hin Hnone; rewrite !elem_of_app; auto|].
      split; [intros t Hin; rewrite !elem_of_app; auto|].
      destruct texts; simpl; (split; [auto|]); split; try done.
      by intros [? _].
Qed.

(** C9, as the code has it.  When an output file is asked for, can be
    written and the batch is not empty, the run changes the file system
    only by that file; the file is UTF-8 text made of the decoded
    payloads in the order of the paths, each followed by a line feed,
    and nothing else.  When no payload contains a line feed, the lines
    of the file are exactly the payloads. *)
Theorem output_file_lines args w path :
  let paths := image_files (files w) (images args) in
  let texts := payloads (files w) paths in
  output_requested args = Some path → writable w path = true → paths ≠ [] →
  files (main args w).1 = <[path := TextFile Utf8 (output_text texts)]> (files w) ∧
  output_text texts = foldr (λ text rest, text +:+ nl +:+ rest) EmptyString texts ∧
  (Forall (λ text, contains "010" text = false) texts →
   split_on "010" (output_text texts) = texts ++ [EmptyString]).
Proof.
  intros paths texts Hout Hw Hne.
  pose proof (main_run args w) as Hrun. cbv zeta in Hrun.
  fold paths in Hrun. fold texts in Hrun.
  destruct paths as [|p0 paths0]; [done|].
  destruct Hrun as (log & _ & _ & ->). rewrite Hout, Hw. simpl.
  split; [done|]. split; [apply output_text_foldr|].
  intros Hfree. rewrite output_text_foldr. by apply split_on_lines.
Qed.

End DecoderProperties.

(** ** The decoder on the stand-in detector *)

Lemma decode_never_raises_witness :
  (@decode_qr_image stub "notes.txt" gallery
   = (mkWorld (files gallery) (writable gallery) (torn gallery) (removable gallery)
        (stdout gallery ++ ["Could not read image: notes.txt"]), Returned []) ∧
   @decode_qr_simple stub "notes.txt" gallery
   = (mkWorld (files gallery) (writable gallery) (torn gallery) (removable gallery)
        (stdout gallery ++ ["Could not read image: notes.txt"]), Returned None)) ∧
  (@decode_qr_image stub "blank.png" gallery = (gallery, Returned []) ∧
   @decode_qr_simple stub "blank.png" gallery = (gallery, Returned None)).
Proof.
  split.
  - apply (proj1 (proj2 (proj2
      (@decode_never_raises stub "notes.txt" gallery)))).
    reflexivity.
  - apply (proj2 (proj2 (proj2
      (@decode_never_raises stub "blank.png" gallery))) "blank.png" None); reflexivity.
Defined.

Lemma batch_exit_status_witness :
  let r := @run_main stub batch_with_gap gallery in
  "File not found: gone.png" ∈ stdout r.1 ∧
  "Text: HELLO" ∈ stdout r.1 ∧
  r.2 = 0.
Proof.
  destruct (@batch_exit_status stub batch_with_gap gallery) as (Hmiss & Htext & _ & Hzero).
  split; [|split].
  - apply (Hmiss "gone.png"); [by left | reflexivity].
  - apply (Htext "HELLO"). by left.
  - apply Hzero. split; [done|]. intros path Hpath. discriminate Hpath.
Defined.

(** C5 as the specification words it fails: a payload is decoded (and
    reported), but the output file cannot be written, the error escapes
    and the exit status is [1]. *)
Lemma batch_exit_status_write_failure :
  let r := @run_main stub batch_locked gallery in
  @payloads stub (files gallery) (images batch_locked) = ["HELLO"] ∧
  stdout r.1 = ["Text: HELLO"] ∧
  (@main stub batch_locked gallery).2 = Raised (OSError "locked.txt") ∧
  r.2 = 1.
Proof. by vm_compute. Qed.

Lemma output_file_lines_witness :
  files (@main stub batch_saved gallery).1
  = <["out.txt" := TextFile Utf8 (output_text ["HELLO"])]> (files gallery) ∧
  output_text ["HELLO"] = "HELLO" +:+ nl ∧
  (Forall (λ text, contains "010" text = false) ["HELLO"] →
   split_on "010" (output_text ["HELLO"]) = ["HELLO"; EmptyString]).
Proof.
  apply (@output_file_lines stub batch_saved gallery "out.txt"); [reflexivity | reflexivity | done].
Defined.

(** C9 as the specification words it fails: the batch yields one
    payload, and that payload takes two lines of the output file.  (And
    when the patterns match no file, the output file asked for is not
    written at all.) *)
Lemma output_file_two_lines :
  (@payloads stub (files gallery) (images batch_card) = [two_lines] ∧
   ∃ text,
     files (@main stub batch_card gallery).1 !! "out.txt" = Some (TextFile Utf8 text) ∧
     split_on "010" text = ["a"; "b"; EmptyString]) ∧
  (output_requested batch_no_match = Some "out.txt" ∧
   files (@main stub batch_no_match gallery).1 !! "out.txt" = None).
Proof.
  split; [split; [by vm_compute|]|by vm_compute].
  eexists. split; by vm_compute.
Qed.

(** ** Parsing the generator output *)

Lemma scan_markers_no_start lines i matrix_start :
  "MATRIX_START" ∉ lines → (scan_markers lines i matrix_start).1 = matrix_start.
Proof.
  revert i. induction lines as [|line lines IH]; intros i Hno; simpl; [done|].
  apply not_elem_of_cons in Hno as [Hne Hno].
  destruct (String.eqb_spec line "MATRIX_START") as [->|_]; [done|].
  destruct (String.eqb line "MATRIX_END"); [done | by apply IH].
Qed.

Lemma scan_markers_no_end lines i matrix_start :
  "MATRIX_END" ∉ lines → (scan_markers lines i matrix_start).2 = -1.
Proof.
  revert i matrix_start. induction lines as [|line lines IH];
    intros i matrix_start Hno; simpl; [done|].
  apply not_elem_of_cons in Hno as [Hne Hno].
  destruct (String.eqb line "MATRIX_START"); [by apply IH|].
  destruct (String.eqb_spec line "MATRIX_END") as [->|_]; [done | by apply IH].
Qed.

(** Where the loop finds the end marker, it lies inside the list, and a
    start marker found by the loop lies before it. *)
Lemma scan_markers_bounds lines i matrix_start s e :
  scan_markers lines i matrix_start = (s, e) → e ≠ -1 → 0 ≤ i →
  i ≤ e < i + Z.of_nat (length lines) ∧ (s = matrix_start ∨ i ≤ s < e).
Proof.
  revert i matrix_start. induction lines as [|line lines IH];
    intros i matrix_start Hscan He Hi; simpl in Hscan.
  - injection Hscan as <- <-. done.
  - destruct (String.eqb line "MATRIX_START").
    + destruct (IH _ _ Hscan He) as [Hb Hs]; [lia|].
      rewrite length_cons. split; [lia|]. right. lia.
    + destruct (String.eqb line "MATRIX_END").
      * injection Hscan as <- <-. rewrite length_cons. split; [lia | by left].
      * destruct (IH _ _ Hscan He) as [Hb Hs]; [lia|].
        rewrite length_cons. split; [lia|]. destruct Hs; [by left | right; lia].
Qed.

Lemma range2_nil a b : b ≤ a → range2 a b = [].
Proof. intros Hle. unfold range2. by replace (Z.to_nat (b - a)) with 0%nat by lia. Qed.

Lemma range2_cons a b : a < b → range2 a b = a :: range2 (a + 1) b.
Proof.
  intros Hlt. unfold range2.
  replace (Z.to_nat (b - a)) with (S (Z.to_nat (b - (a + 1)))) by lia.
  cbn [seq fmap list_fmap]. f_equal; [lia|].
  rewrite <- fmap_S_seq, <- list_fmap_compose.
  apply list_fmap_ext. intros _ k _. simpl. lia.
Qed.

(** Reading the lines [a], ..., [b-1] by index is going through that
    slice of the list. *)
Lemma for_each_range2 {St : Type} (lines : list string) (f : string → St → outcome St) :
  ∀ (n : nat) a b acc,
    n = Z.to_nat (b - a) → 0 ≤ a → b ≤ Z.of_nat (length lines) →
    for_each (range2 a b) (λ i st, line ← py_index lines i; f line st) acc
    = for_each (take n (drop (Z.to_nat a) lines)) f acc.
Proof.
  induction n as [|n IH]; intros a b acc Hn Ha Hb.
  - rewrite range2_nil by lia. done.
  - rewrite range2_cons by lia.
    destruct (lookup_lt_is_Some_2 lines (Z.to_nat a)) as [line Hline]; [lia|].
    rewrite (drop_S _ _ _ Hline). cbn [take for_each].
    assert (py_index lines a = Returned line) as ->.
    { unfold py_index, index. destruct (Z.ltb_spec a 0); [lia|]. by rewrite Hline. }
    simpl.
    destruct (f line acc) as [acc'|e]; simpl; [|done].
    rewrite (IH (a + 1) b) by lia.
    by replace (Z.to_nat (a + 1)) with (S (Z.to_nat a)) by lia.
Qed.

Lemma map_outcome_int tokens :
  match mapM py_int tokens with
  | Some values => map_outcome int tokens = Returned values
  | None => ∃ e, map_outcome int tokens = Raised e
  end.
Proof.
  induction tokens as [|token tokens IH]; [done|].
  cbn [mapM map_outcome].
  assert (int token = match py_int token with
                      | Some v => Returned v
                      | None => Raised (Exn "ValueError"
                          ("invalid literal for int() with base 10: '" +:+ token +:+ "'"))
                      end) as -> by done.
  destruct (py_int token) as [v|]; simpl; [|by eexists].
  destruct (mapM py_int tokens) as [values|]; simpl.
  - by rewrite IH.
  - destruct IH as [e ->]. by eexists.
Qed.

Lemma parse_rows_slice (row_lines : list string) :
  ∀ acc,
    match mapM read_row row_lines with
    | Some rows =>
        for_each row_lines
          (λ line matrix, row_values ← map_outcome int (split line);
                          Returned (matrix ++ [row_values])) acc
        = Returned (acc ++ rows)
    | None =>
        ∃ e, for_each row_lines
               (λ line matrix, row_values ← map_outcome int (split line);
                               Returned (matrix ++ [row_values])) acc
             = Raised e
    end.
Proof.
  induction row_lines as [|line row_lines IH]; intros acc.
  - simpl. by rewrite app_nil_r.
  - cbn [mapM for_each].
    pose proof (map_outcome_int (split line)) as Hrow.
    fold (read_row line) in Hrow.
    destruct (read_row line) as [row|]; simpl.
    + rewrite Hrow. simpl. specialize (IH (acc ++ [row])).
      destruct (mapM read_row row_lines) as [rows|]; simpl.
      * by rewrite IH, <- app_assoc.
      * done.
    + destruct Hrow as [e ->]. by eexists.
Qed.

(** ** The matrix source *)

Section MatrixSourceProperties.

Variable run_process :
  list string → gmap string FileData →
  gmap string FileData * outcome CompletedProcess.

Lemma remove_script_run w :
  remove_script w
  = (mkWorld (if removable w temp_script then delete temp_script (files w)
              else files w)
       (writable w) (torn w) (removable w) (stdout w), Returned ()).
Proof.
  unfold remove_script, try_except, os_remove.
  destruct (files w !! temp_script) eqn:Hfile.
  - destruct (removable w temp_script); [done | by destruct w].
  - rewrite (delete_id _ _ Hfile). unfold mret, Py_ret.
    destruct (removable w temp_script); by destruct w.
Qed.

(** The world in which the generator is started. *)
Local Abbreviation with_script text w :=
  (mkWorld (<[temp_script := TextFile LocaleEncoding (lua_script text)]> (files w))
     (writable w) (torn w) (removable w) (stdout w)).

Lemma lua_qr_to_matrix_run text ec_level w :
  lua_qr_to_matrix run_process text ec_level w =
  if writable w temp_script then
    try_finally
      (try_except (run_and_parse run_process)
         (λ e, print ("Error generating matrix: " +:+ exn_msg e);; mret None))
      remove_script (with_script text w)
  else
    match torn w temp_script with
    | Some n =>
        (mkWorld (<[temp_script := TextFile LocaleEncoding
                                     (String.substring 0 n (lua_script text))]>
                    (files w))
           (writable w) (torn w) (removable w) (stdout w),
         Raised (OSError temp_script))
    | None => (w, Raised (OSError temp_script))
    end.
Proof.
  unfold lua_qr_to_matrix. unfold mbind at 1, Py_bind. rewrite write_file_run.
  destruct (writable w temp_script); [done|].
  by destruct (torn w temp_script).
Qed.

(** What a call gives when the script file is written: the value of the
    [try] body, and the files the generator process left, cleaned up as
    far as the removal is allowed. *)
Lemma lua_qr_to_matrix_result text ec_level w :
  writable w temp_script = true →
  let fs := (run_process ["lua"; temp_script] (files (with_script text w))).1 in
  ∃ log,
    lua_qr_to_matrix run_process text ec_level w
    = (mkWorld (if removable w temp_script then delete temp_script fs else fs)
         (writable w) (torn w) (removable w) (stdout w ++ log),
       Returned match (run_and_parse run_process (with_script text w)).2 with
                | Returned matrix => matrix
                | Raised _ => None
                end).
Proof.
  intros Hw fs. rewrite lua_qr_to_matrix_run, Hw. unfold try_finally, try_except.
  assert (∃ log1, (run_and_parse run_process (with_script text w)).1
                  = mkWorld fs (writable w) (torn w) (removable w)
                      (stdout w ++ log1)) as (log1 & Hw1).
  { subst fs. unfold run_and_parse, subprocess_run. unfold mbind at 1, Py_bind. simpl.
    destruct (run_process _ _) as [fs1 [result|e]]; simpl.
    - destruct (negb (returncode result =? 0)).
      + unfold mbind, Py_bind, print, mret, Py_ret. simpl. by eexists.
      + unfold parse_output.
        destruct (scan_markers _ _ _) as [s e].
        destruct ((s =? -1) || (e =? -1)).
        * unfold mbind, Py_bind, print, mret, Py_ret. simpl. by eexists.
        * unfold mbind, Py_bind, print, mret, Py_ret, lift. simpl.
          destruct (parse_size _ _); simpl;
            [destruct (parse_rows _ _ _); simpl|];
            first [by eexists | exists []; by rewrite app_nil_r].
    - exists []. by rewrite app_nil_r. }
  clearbody fs.
  destruct (run_and_parse run_process (with_script text w)) as [w1 [matrix|e]];
    simpl in Hw1; subst w1.
  - rewrite remove_script_run. simpl. by exists log1.
  - unfold mbind, Py_bind, print, mret, Py_ret. simpl.
    rewrite remove_script_run. simpl.
    exists (log1 ++ ["Error generating matrix: " +:+ exn_msg e]).
    by rewrite app_assoc.
Qed.


(** The value a call gives for an outcome of the [try] body. *)
Local Abbreviation value_of o :=
  (match o with Returned matrix => matrix | Raised _ => None end).

Lemma parse_output_missing out w s e :
  scan_markers (split_on "010" (strip out)) 0 (-1) = (s, e) →
  s = -1 ∨ e = -1 →
  (parse_output out w).2 = Returned None.
Proof.
  intros Hscan Hmiss. unfold parse_output. rewrite Hscan.
  assert ((s =? -1) || (e =? -1) = true) as ->; [|done].
  apply orb_true_iff. rewrite !Z.eqb_eq. done.
Qed.

Lemma parse_output_found out w s e :
  let lines := split_on "010" (strip out) in
  scan_markers lines 0 (-1) = (s, e) → s ≠ -1 → e ≠ -1 →
  ∃ size_line,
    lines !! Z.to_nat (s + 1) = Some size_line ∧
    value_of (parse_output out w).2
    = match py_int size_line with
      | Some _ =>
          mapM read_row (take (Z.to_nat (e - (s + 2))) (drop (Z.to_nat (s + 2)) lines))
      | None => None
      end.
Proof.
  intros lines Hscan Hs He.
  destruct (scan_markers_bounds _ _ _ _ _ Hscan He) as [Hbe Hbs]; [done|].
  destruct Hbs as [?|Hbs]; [done|].
  destruct (lookup_lt_is_Some_2 lines (Z.to_nat (s + 1))) as [size_line Hline]; [lia|].
  exists size_line. split; [done|].
  unfold parse_output. fold lines. rewrite Hscan.
  assert ((s =? -1) || (e =? -1) = false) as ->.
  { apply orb_false_iff. rewrite !Z.eqb_neq. done. }
  unfold mbind at 1, Py_bind, lift.
  assert (parse_size lines s = match py_int size_line with
                               | Some v => Returned v
                               | None => Raised (Exn "ValueError"
                                   ("invalid literal for int() with base 10: '"
                                    +:+ size_line +:+ "'"))
                               end) as ->.
  { unfold parse_size, py_index, index. destruct (Z.ltb_spec (s + 1) 0); [lia|].
    by rewrite Hline. }
  destruct (py_int size_line) as [size|]; [|done].
  unfold mbind at 1, Py_bind. unfold parse_rows.
  rewrite (for_each_range2 lines
             (λ line matrix, row_values ← map_outcome int (split line);
                             Returned (matrix ++ [row_values]))
             (Z.to_nat (e - (s + 2))) (s + 2) e [] eq_refl) by lia.
  pose proof (parse_rows_slice
                (take (Z.to_nat (e - (s + 2))) (drop (Z.to_nat (s + 2)) lines)) [])
    as Hrows.
  destruct (mapM read_row _) as [rows|].
  - rewrite Hrows. done.
  - destruct Hrows as [exn ->]. done.
Qed.

Lemma run_and_parse_completed text w fs out err :
  run_process ["lua"; temp_script] (files (with_script text w))
  = (fs, Returned (mkCompleted 0 out err)) →
  run_and_parse run_process (with_script text w)
  = parse_output out (mkWorld fs (writable w) (torn w) (removable w) (stdout w)).
Proof.
  intros Hrun. unfold run_and_parse, subprocess_run.
  unfold mbind at 1, Py_bind. by rewrite Hrun.
Qed.

(** C4, as the code has it.  For a generator that exits with status [0]:
    the call returns [None] when no line of the output is [MATRIX_START]
    or none is [MATRIX_END], when the line after the start marker is not
    an integer literal, and when a token of a row between the markers is
    not one.  The declared size is compared with nothing: whenever the
    size line and all tokens parse, the rows are returned as they were
    read, whatever their number and their lengths. *)
Theorem parser_checks text ec_level w fs out err :
  writable w temp_script = true →
  run_process ["lua"; temp_script] (files (with_script text w))
  = (fs, Returned (mkCompleted 0 out err)) →
  let lines := split_on "010" (strip out) in
  let result := (lua_qr_to_matrix run_process text ec_level w).2 in
  ("MATRIX_START" ∉ lines → result = Returned None) ∧
  ("MATRIX_END" ∉ lines → result = Returned None) ∧
  ∀ s e,
    scan_markers lines 0 (-1) = (s, e) → s ≠ -1 → e ≠ -1 →
    ∃ size_line,
      lines !! Z.to_nat (s + 1) = Some size_line ∧
      let row_lines := take (Z.to_nat (e - (s + 2))) (drop (Z.to_nat (s + 2)) lines) in
      (py_int size_line = None → result = Returned None) ∧
      (∀ line token,
         line ∈ row_lines → token ∈ split line → py_int token = None →
         result = Returned None) ∧
      (∀ size rows,
         py_int size_line = Some size → mapM read_row row_lines = Some rows →
         result = Returned (Some rows)).
Proof.
  intros Hw Hrun lines result.
  destruct (lua_qr_to_matrix_result text ec_level w Hw) as (log & Hcall).
  assert (result = Returned (value_of
            (parse_output out
               (mkWorld fs (writable w) (torn w) (removable w) (stdout w))).2))
    as Hresult.
  { unfold result. rewrite Hcall. simpl.
    by rewrite (run_and_parse_completed text w fs out err Hrun). }
  clear Hcall. clearbody result. subst result.
  destruct (scan_markers lines 0 (-1)) as [s e] eqn:Hscan.
  split; [|split].
  - intros Hno. pose proof (scan_markers_no_start lines 0 (-1) Hno) as Hs.
    rewrite Hscan in Hs. simpl in Hs.
    by rewrite (parse_output_missing out _ s e Hscan (or_introl Hs)).
  - intros Hno. pose proof (scan_markers_no_end lines 0 (-1) Hno) as He.
    rewrite Hscan in He. simpl in He.
    by rewrite (parse_output_missing out _ s e Hscan (or_intror He)).
  - intros s' e' [= <- <-] Hs He.
    destruct (parse_output_found out
                (mkWorld fs (writable w) (torn w) (removable w) (stdout w)) s e
                Hscan Hs He) as (size_line & Hline & ->).
    exists size_line. split; [done|]. fold lines. cbv zeta. split; [|split].
    + by intros ->.
    + intros line token Hline' Htoken Hbad.
      destruct (py_int size_line); [|done]. f_equal.
      apply mapM_None, Exists_exists. exists line. split; [done|].
      apply mapM_None, Exists_exists. by exists token.
    + by intros size rows -> ->.
Qed.

End MatrixSourceProperties.



(** The runs of the examples, computed. *)
Example generation_runs :
  (lua_qr_to_matrix (prints good_output) "hi" None fresh_world).2
    = Returned (Some [[1; -1]; [-1; 1]]) ∧
  (lua_qr_to_matrix fails "hi" None fresh_world).2 = Returned None ∧
  (lua_qr_to_matrix missing_interpreter "hi" None fresh_world).2 = Returned None ∧
  (lua_qr_to_matrix removes_script "hi" None fresh_world).2 = Returned None ∧
  files (lua_qr_to_matrix removes_script "hi" None fresh_world).1 !! temp_script = None ∧
  (lua_qr_to_matrix (prints bad_cell_output) "hi" None fresh_world).2 = Returned None.
Proof. by vm_compute. Qed.

Lemma parser_checks_witness :
  let lines := split_on "010" (strip good_output) in
  let result := (lua_qr_to_matrix (prints good_output) "hi" None fresh_world).2 in
  ("MATRIX_START" ∉ lines → result = Returned None) ∧
  ("MATRIX_END" ∉ lines → result = Returned None) ∧
  ∀ s e,
    scan_markers lines 0 (-1) = (s, e) → s ≠ -1 → e ≠ -1 →
    ∃ size_line,
      lines !! Z.to_nat (s + 1) = Some size_line ∧
      let row_lines := take (Z.to_nat (e - (s + 2))) (drop (Z.to_nat (s + 2)) lines) in
      (py_int size_line = None → result = Returned None) ∧
      (∀ line token,
         line ∈ row_lines → token ∈ split line → py_int token = None →
         result = Returned None) ∧
      (∀ size rows,
         py_int size_line = Some size → mapM read_row row_lines = Some rows →
         result = Returned (Some rows)).
Proof.
  apply (parser_checks (prints good_output) "hi" None fresh_world
           (<[temp_script := TextFile LocaleEncoding (lua_script "hi")]> ∅)
           good_output EmptyString); reflexivity.
Defined.

(** C4 as the specification words it fails: the output declares size 3
    and carries one row of two cells between the markers; the call
    returns that row as the matrix. *)
Lemma parser_accepts_wrong_size :
  split_on "010" (strip short_output) = ["MATRIX_START"; "3"; "1 -1"; "MATRIX_END"] ∧
  (lua_qr_to_matrix (prints short_output) "hi" None fresh_world).2
  = Returned (Some [[1; -1]]).
Proof. by vm_compute. Qed.

(** * Further properties of the code *)

(** ** The rasterizer *)

Lemma covered_ext matrix ms1 b1 ms2 b2 i1 j1 i2 j2 :
  (∀ y x, in_module ms1 b1 y x i1 j1 = in_module ms2 b2 y x i2 j2) →
  covered matrix ms1 b1 i1 j1 = covered matrix ms2 b2 i2 j2.
Proof.
  intros Hsame. apply eq_true_iff_eq. rewrite !covered_spec.
  split; intros (y & x & Hy & Hx & Hd & Hm); exists y, x;
    (repeat split; [done..|]); by rewrite ?Hsame in *.
Qed.

Lemma module_of_pixel ms a p :
  1 ≤ ms → 0 ≤ p → (a * ms ≤ p ≤ a * ms + ms - 1 ↔ a * 1 ≤ p / ms ≤ a * 1 + 1 - 1).
Proof.
  intros Hms Hp.
  pose proof (Z.div_mod p ms) as Hdm. pose proof (Z.mod_pos_bound p ms) as Hmod.
  split; intros H; nia.
Qed.

(** X1. The module size only scales the picture: the pixel [(qx, qy)]
    of the rendering with modules of [module_size] pixels has the colour
    of the pixel [(qx / module_size, qy / module_size)] of the rendering
    with one pixel for each module, and lies outside the one image
    exactly when the other lies outside the other. *)
Theorem module_size_scales matrix module_size border :
  square matrix → 1 ≤ module_size → 0 ≤ border →
  ∃ img img1,
    render matrix module_size border = Returned img ∧
    render matrix 1 border = Returned img1 ∧
    ∀ qx qy, 0 ≤ qx → 0 ≤ qy →
      pixel_at img qx qy = pixel_at img1 (qx / module_size) (qy / module_size).
Proof.
  intros Hsq Hms Hb.
  destruct (render_spec matrix module_size border (square_wide _ Hsq) Hms Hb)
    as (img & Hrender & _ & _ & _ & Hpx).
  destruct (render_spec matrix 1 border (square_wide _ Hsq)) as
    (img1 & Hrender1 & _ & _ & _ & Hpx1); [lia | done |].
  exists img, img1. split; [done|]. split; [done|].
  intros qx qy Hx Hy.
  assert (0 ≤ qx / module_size) by (apply Z.div_pos; lia).
  assert (0 ≤ qy / module_size) by (apply Z.div_pos; lia).
  rewrite !pixel_at_px, Hpx, Hpx1 by done. unfold side.
  pose proof (Z.div_mod qx module_size) as Hdx.
  pose proof (Z.mod_pos_bound qx module_size) as Hmx.
  pose proof (Z.div_mod qy module_size) as Hdy.
  pose proof (Z.mod_pos_bound qy module_size) as Hmy.
  assert (∀ s q, 0 ≤ q → 0 ≤ s →
            bool_decide (Z.to_nat q < Z.to_nat (s * module_size))%nat
            = bool_decide (Z.to_nat (q / module_size) < Z.to_nat (s * 1))%nat) as Hin.
  { intros s q Hq Hs. apply bool_decide_ext.
    pose proof (Z.div_mod q module_size). pose proof (Z.mod_pos_bound q module_size).
    assert (0 ≤ q / module_size) by (apply Z.div_pos; lia).
    split; intros; nia. }
  rewrite <- !Hin by lia.
  destruct (bool_decide _ && bool_decide _); [|done].
  rewrite (covered_ext matrix module_size border 1 border _ _
             (Z.to_nat (qx / module_size)) (Z.to_nat (qy / module_size))); [done|].
  intros y x.
  apply eq_true_iff_eq. rewrite !in_module_spec, !Z2Nat.id by done.
  rewrite (module_of_pixel module_size _ qx), (module_of_pixel module_size _ qy) by lia.
  done.
Qed.

Lemma module_size_scales_witness :
  ∃ img img1,
    render checker3 10 1 = Returned img ∧
    render checker3 1 1 = Returned img1 ∧
    ∀ qx qy, 0 ≤ qx → 0 ≤ qy →
      pixel_at img qx qy = pixel_at img1 (qx / 10) (qy / 10).
Proof.
  apply (module_size_scales checker3 10 1); [exact checker3_square | lia | lia].
Defined.

(** X2. The border only moves the picture: inside the area of the
    modules, the pixel [(qx + border * module_size, qy + border *
    module_size)] of the rendering with a border is the pixel [(qx, qy)]
    of the rendering without border. *)
Theorem border_translates matrix module_size border :
  square matrix → 1 ≤ module_size → 0 ≤ border →
  let n := Z.of_nat (length matrix) in
  ∃ img img0,
    render matrix module_size border = Returned img ∧
    render matrix module_size 0 = Returned img0 ∧
    ∀ qx qy, 0 ≤ qx < n * module_size → 0 ≤ qy < n * module_size →
      pixel_at img (qx + border * module_size) (qy + border * module_size)
      = pixel_at img0 qx qy.
Proof.
  intros Hsq Hms Hb n.
  destruct (render_spec matrix module_size border (square_wide _ Hsq) Hms Hb)
    as (img & Hrender & _ & _ & _ & Hpx).
  destruct (render_spec matrix module_size 0 (square_wide _ Hsq) Hms) as
    (img0 & Hrender0 & _ & _ & _ & Hpx0); [done|].
  exists img, img0. split; [done|]. split; [done|].
  intros qx qy Hx Hy.
  rewrite !pixel_at_px, Hpx, Hpx0 by nia. unfold side. fold n.
  rewrite !bool_decide_eq_true_2 by nia. simpl.
  rewrite (covered_ext matrix module_size border module_size 0 _ _
             (Z.to_nat qx) (Z.to_nat qy)); [done|].
  intros y x.
  apply eq_true_iff_eq. rewrite !in_module_spec, !Z2Nat.id by nia. nia.
Qed.

Lemma border_translates_witness :
  let n := Z.of_nat (length checker3) in
  ∃ img img0,
    render checker3 10 1 = Returned img ∧
    render checker3 10 0 = Returned img0 ∧
    ∀ qx qy, 0 ≤ qx < n * 10 → 0 ≤ qy < n * 10 →
      pixel_at img (qx + 1 * 10) (qy + 1 * 10) = pixel_at img0 qx qy.
Proof.
  apply (border_translates checker3 10 1); [exact checker3_square | lia | lia].
Defined.

(** X3. [matrix_to_image] touches no file but the one it is given: every
    other path holds after the call what it held before, whatever the
    matrix and the configuration; and a call that ends before the save
    (for an empty matrix, or on an error of the drawing) leaves the whole
    file system as it was. *)
Theorem only_the_named_file matrix filename module_size border w :
  let r := matrix_to_image matrix filename module_size border w in
  (∀ path, path ≠ filename → files r.1 !! path = files w !! path) ∧
  writable r.1 = writable w ∧
  (matrix = [] → r.2 = Returned false ∧ files r.1 = files w) ∧
  (∀ e, matrix ≠ [] → render matrix module_size border = Raised e →
        r.2 = Raised e ∧ files r.1 = files w).
Proof.
  intros r. subst r. destruct matrix as [|row matrix]; [done|].
  rewrite matrix_to_image_run by done. cbv zeta.
  destruct (render _ _ _) as [img|e].
  - destruct (writable w filename); [|done]. simpl.
    split; [|done]. intros path Hne. by apply lookup_insert_ne.
  - simpl. split; [done|]. split; [done|]. split; [done|].
    by intros e' _ [= <-].
Qed.

(** X4. The configuration is not checked: when the side of the image
    comes out negative (a negative module size, say), the error of
    [Image.new] escapes after the first line is printed, and nothing is
    written. *)
Theorem negative_side_escapes matrix filename module_size border w :
  matrix ≠ [] →
  (Z.of_nat (length matrix) + 2 * border) * module_size < 0 →
  let r := matrix_to_image matrix filename module_size border w in
  (∃ msg, r.2 = Raised (Exn "ValueError" msg)) ∧
  files r.1 = files w ∧
  stdout r.1 = stdout w ++ [creating_line (length matrix) module_size border].
Proof.
  intros Hne Hneg r. subst r. rewrite matrix_to_image_run by done. cbv zeta.
  unfold render, Image_new.
  destruct (Z.ltb_spec ((Z.of_nat (length matrix) + 2 * border) * module_size) 0);
    [|lia].
  simpl. by eauto.
Qed.

Lemma negative_side_escapes_witness :
  let r := matrix_to_image checker3 "qr.png" (-1) 4 fresh_world in
  (∃ msg, r.2 = Raised (Exn "ValueError" msg)) ∧
  files r.1 = files fresh_world ∧
  stdout r.1 = stdout fresh_world ++ [creating_line (length checker3) (-1) 4].
Proof.
  apply (negative_side_escapes checker3 "qr.png" (-1) 4 fresh_world); [done|].
  simpl. lia.
Defined.

Lemma only_the_named_file_witness :
  (let r := matrix_to_image checker3 "qr.png" 10 1 gallery in
   files r.1 !! "hello.png" = files gallery !! "hello.png") ∧
  (let r := matrix_to_image ragged "hello.png" 10 1 gallery in
   r.2 = Raised IndexError ∧ files r.1 = files gallery).
Proof.
  split.
  - apply (proj1 (only_the_named_file checker3 "qr.png" 10 1 gallery)). done.
  - apply (proj2 (proj2 (proj2 (only_the_named_file ragged "hello.png" 10 1 gallery)))
             IndexError); [discriminate | by vm_compute].
Defined.

(** ** Printed integers and [int] *)

Lemma all_chars_app P (s t : string) :
  all_chars P (s +:+ t) = all_chars P s && all_chars P t.
Proof.
  induction s as [|c s IH]; [done|].
  rewrite string_app_cons. cbn [all_chars]. by rewrite IH, andb_assoc.
Qed.

Lemma all_chars_impl (P Q : ascii → bool) s :
  (∀ c, P c = true → Q c = true) → all_chars P s = true → all_chars Q s = true.
Proof.
  intros HPQ. induction s as [|c s IH]; [done|]. cbn [all_chars].
  rewrite !andb_true_iff. intros [Hc Hs]. auto.
Qed.

Lemma digit_val_pretty_N_char (x : N) :
  (x < 10)%N → digit_val (pretty_N_char x) = Some (Z.of_N x).
Proof.
  intros Hx.
  assert (x = 0 ∨ x = 1 ∨ x = 2 ∨ x = 3 ∨ x = 4 ∨ x = 5 ∨ x = 6 ∨ x = 7
          ∨ x = 8 ∨ x = 9)%N as Hcases by lia.
  repeat (destruct Hcases as [->|Hcases]; [done|]). by subst.
Qed.

Lemma pretty_N_go_digits (x : N) :
  ∀ s, all_chars is_digit s = true → all_chars is_digit (pretty_N_go x s) = true.
Proof.
  induction (N.lt_wf_0 x) as [x _ IH]; intros s Hs.
  assert (x = 0 ∨ 0 < x)%N as [->|Hpos] by lia; [by rewrite pretty_N_go_0|].
  rewrite pretty_N_go_step by done. apply IH; [by apply N.div_lt|].
  cbn [all_chars]. rewrite Hs, andb_true_r. unfold is_digit.
  by rewrite digit_val_pretty_N_char by (by apply N.mod_lt).
Qed.

Lemma pretty_N_go_nonempty (x : N) :
  ∀ s, s ≠ EmptyString → pretty_N_go x s ≠ EmptyString.
Proof.
  induction (N.lt_wf_0 x) as [x _ IH]; intros s Hs.
  assert (x = 0 ∨ 0 < x)%N as [->|Hpos] by lia; [by rewrite pretty_N_go_0|].
  rewrite pretty_N_go_step by done. apply IH; [by apply N.div_lt | done].
Qed.

Lemma dval_pretty_N_go (x : N) :
  ∃ k, 0 ≤ k ∧ ∀ s acc, dval (pretty_N_go x s) acc = dval s (acc * 10 ^ k + Z.of_N x).
Proof.
  induction (N.lt_wf_0 x) as [x _ IH].
  assert (x = 0 ∨ 0 < x)%N as [->|Hpos] by lia.
  - exists 0. split; [done|]. intros s acc. rewrite pretty_N_go_0. f_equal. lia.
  - destruct (IH (x `div` 10)%N) as (k & Hk & Hval); [by apply N.div_lt|].
    exists (k + 1). split; [lia|]. intros s acc.
    rewrite pretty_N_go_step, Hval by done. cbn [dval].
    rewrite digit_val_pretty_N_char by (by apply N.mod_lt). f_equal.
    rewrite Z.pow_add_r, Z.pow_1_r by lia.
    pose proof (N.div_mod x 10) as Hdm.
    rewrite N2Z.inj_div, N2Z.inj_mod. 
    pose proof (Z.div_mod (Z.of_N x) 10). lia.
Qed.

Lemma int_digits_all s :
  ∀ acc, all_chars is_digit s = true →
         int_digits s acc = Some (dval s acc, EmptyString).
Proof.
  induction s as [|c s IH]; intros acc Hs; [done|].
  cbn [all_chars] in Hs. apply andb_true_iff in Hs as [Hc Hs].
  cbn [int_digits dval]. unfold is_digit in Hc.
  destruct (digit_val c) as [d|]; [by apply IH | done].
Qed.

Lemma digit_head c (s : string) :
  is_digit c = true →
  py_int (String c s) = int_unsigned (String c s).
Proof.
  destruct c as [[] [] [] [] [] [] [] []]; intros Hc; try done.
Qed.

Lemma py_int_digits (s : string) :
  all_chars is_digit s = true → s ≠ EmptyString → py_int s = Some (dval s 0).
Proof.
  destruct s as [|c s]; [done|]. intros Hs _.
  cbn [all_chars] in Hs. apply andb_true_iff in Hs as [Hc Hs].
  rewrite digit_head by done. unfold int_unsigned. cbn [dval].
  unfold is_digit in Hc. destruct (digit_val c) as [d|]; [|done].
  rewrite int_digits_all by done. simpl. first [done | repeat f_equal; lia].
Qed.

Lemma py_int_pretty_pos (p : positive) :
  all_chars is_digit (pretty (Npos p)) = true ∧
  pretty (Npos p) ≠ EmptyString ∧
  py_int (pretty (Npos p)) = Some (Zpos p).
Proof.
  unfold pretty, pretty_N. destruct (decide (N.pos p = 0%N)) as [|_]; [done|].
  assert (all_chars is_digit (pretty_N_go (N.pos p) EmptyString) = true) as Hd
    by by apply pretty_N_go_digits.
  assert (pretty_N_go (N.pos p) EmptyString ≠ EmptyString) as Hne.
  { rewrite pretty_N_go_step by done. by apply pretty_N_go_nonempty. }
  split; [done|]. split; [done|].
  rewrite py_int_digits by done.
  destruct (dval_pretty_N_go (N.pos p)) as (k & _ & ->). simpl. first [done | f_equal; lia].
Qed.

(** [int(str(z)) = z]. *)
Lemma py_int_pretty (z : Z) : py_int (pretty z) = Some z.
Proof.
  destruct z as [|p|p]; [done|..].
  - apply py_int_pretty_pos.
  - destruct (py_int_pretty_pos p) as (Hd & Hne & Hint).
    change (pretty (Z.neg p)) with (String "-" (pretty (N.pos p))).
    change (py_int (String "-" (pretty (N.pos p))))
      with (Z.opp <$> int_unsigned (pretty (N.pos p))).
    destruct (pretty (N.pos p)) as [|c s] eqn:Hs; [done|].
    cbn [all_chars] in Hd. apply andb_true_iff in Hd as [Hc _].
    rewrite <- digit_head, Hint by done. done.
Qed.

Lemma pretty_chars (z : Z) :
  all_chars is_digit_or_dash (pretty z) = true ∧ pretty z ≠ EmptyString.
Proof.
  assert (∀ p, all_chars is_digit_or_dash (pretty (N.pos p)) = true) as Hpos.
  { intros p. eapply all_chars_impl; [|apply py_int_pretty_pos].
    intros c Hc. unfold is_digit_or_dash. by rewrite Hc. }
  destruct z as [|p|p]; [done|..].
  - split; [apply Hpos | apply py_int_pretty_pos].
  - change (pretty (Z.neg p)) with (String "-" (pretty (N.pos p))).
    split; [|done]. cbn [all_chars]. by rewrite Hpos.
Qed.

(** ** Splitting what was joined *)

Lemma row_char_not_space c : is_digit_or_dash c = true → is_space c = false.
Proof. destruct c as [[] [] [] [] [] [] [] []]; by intros Hc. Qed.

Lemma split_go_token (t : string) :
  ∀ rest cur, all_chars is_digit_or_dash t = true →
              split_go (t +:+ rest) cur = split_go rest (cur +:+ t).
Proof.
  induction t as [|c t IH]; intros rest cur Ht.
  - by rewrite string_app_nil_r.
  - cbn [all_chars] in Ht. apply andb_true_iff in Ht as [Hc Ht].
    rewrite string_app_cons. cbn [split_go]. rewrite (row_char_not_space c Hc).
    rewrite IH by done. f_equal. by rewrite string_app_assoc.
Qed.

Lemma split_join (tokens : list string) :
  Forall (λ t, all_chars is_digit_or_dash t = true ∧ t ≠ EmptyString) tokens →
  split (join " " tokens) = tokens.
Proof.
  unfold split. induction 1 as [|t tokens [Ht Hne] Hts IH]; [done|].
  destruct tokens as [|t2 tokens].
  - cbn [join]. rewrite <- (string_app_nil_r t) at 1.
    rewrite split_go_token by done. simpl. by destruct t.
  - change (join " " (t :: t2 :: tokens))
      with (t +:+ String " " (join " " (t2 :: tokens))).
    rewrite split_go_token by done. cbn [split_go String.append].
    change (is_space " ") with true. cbv iota.
    destruct t as [|c t]; [done|]. by rewrite IH.
Qed.

Lemma read_row_line (row : list Z) : read_row (row_line row) = Some row.
Proof.
  unfold read_row, row_line. rewrite split_join.
  - apply mapM_Some, Forall2_fmap_l, Forall_Forall2_diag, Forall_forall.
    intros z _. apply py_int_pretty.
  - apply Forall_fmap, Forall_forall. intros z _. apply pretty_chars.
Qed.

Lemma join_chars (P : ascii → bool) sep (pieces : list string) :
  all_chars P sep = true → Forall (λ t, all_chars P t = true) pieces →
  all_chars P (join sep pieces) = true.
Proof.
  intros Hsep. induction 1 as [|t pieces Ht Hts IH]; [done|].
  destruct pieces as [|t2 pieces]; [done|].
  change (join sep (t :: t2 :: pieces)) with (t +:+ sep +:+ join sep (t2 :: pieces)).
  by rewrite !all_chars_app, Ht, Hsep, IH.
Qed.

Lemma row_line_chars (row : list Z) : all_chars is_row_char (row_line row) = true.
Proof.
  unfold row_line. apply join_chars; [done|].
  apply Forall_fmap, Forall_forall. intros z _. simpl.
  eapply all_chars_impl; [|apply pretty_chars].
  intros c Hc. unfold is_row_char. by rewrite Hc.
Qed.

Lemma pretty_row_chars (z : Z) : all_chars is_row_char (pretty z) = true.
Proof.
  eapply all_chars_impl; [|apply pretty_chars].
  intros c Hc. unfold is_row_char. by rewrite Hc.
Qed.

(** A printed size or row has no line feed in it and is no marker. *)
Lemma row_chars_line (line : string) :
  all_chars is_row_char line = true →
  contains "010" line = false ∧ line ≠ "MATRIX_START" ∧ line ≠ "MATRIX_END".
Proof.
  intros Hline. split; [|split; by intros ->].
  induction line as [|c line IH]; [done|].
  cbn [all_chars] in Hline. apply andb_true_iff in Hline as [Hc Hline].
  cbn [contains]. rewrite IH by done. rewrite orb_false_r.
  by destruct c as [[] [] [] [] [] [] [] []].
Qed.

(** ** The loop that looks for the markers *)

Lemma scan_markers_before pre :
  ∀ rest i matrix_start,
    "MATRIX_END" ∉ pre →
    scan_markers (pre ++ "MATRIX_START" :: rest) i matrix_start
    = scan_markers rest (i + Z.of_nat (length pre) + 1) (i + Z.of_nat (length pre)).
Proof.
  induction pre as [|line pre IH]; intros rest i matrix_start Hno.
  - simpl. f_equal; lia.
  - apply not_elem_of_cons in Hno as [Hne Hno].
    cbn [app scan_markers]. rewrite length_cons.
    destruct (String.eqb line "MATRIX_START").
    + rewrite IH by done. f_equal; lia.
    + destruct (String.eqb_spec line "MATRIX_END") as [->|_]; [done|].
      rewrite IH by done. f_equal; lia.
Qed.

Lemma scan_markers_block mid :
  ∀ post i matrix_start,
    "MATRIX_START" ∉ mid → "MATRIX_END" ∉ mid →
    scan_markers (mid ++ "MATRIX_END" :: post) i matrix_start
    = (matrix_start, i + Z.of_nat (length mid)).
Proof.
  induction mid as [|line mid IH]; intros post i matrix_start Hs He.
  - simpl. f_equal. lia.
  - apply not_elem_of_cons in Hs as [Hns Hs]. apply not_elem_of_cons in He as [Hne He].
    cbn [app scan_markers]. rewrite length_cons.
    destruct (String.eqb_spec line "MATRIX_START") as [->|_]; [done|].
    destruct (String.eqb_spec line "MATRIX_END") as [->|_]; [done|].
    rewrite IH by done. f_equal. lia.
Qed.

(** X5. Which block the parser reads: the one opened by the last
    [MATRIX_START] before the first [MATRIX_END].  Lines before that
    marker (earlier start markers among them) and everything after the
    end marker play no part. *)
Theorem marker_selection pre mid post :
  "MATRIX_END" ∉ pre → "MATRIX_START" ∉ mid → "MATRIX_END" ∉ mid →
  scan_markers (pre ++ ["MATRIX_START"] ++ mid ++ ["MATRIX_END"] ++ post) 0 (-1)
  = (Z.of_nat (length pre), Z.of_nat (length pre) + 1 + Z.of_nat (length mid)).
Proof.
  intros Hpre Hs He. simpl.
  rewrite scan_markers_before, scan_markers_block by done. f_equal; lia.
Qed.

Lemma marker_selection_witness :
  scan_markers (["noise"; "MATRIX_START"; "9"] ++ ["MATRIX_START"] ++ ["2"; "1 1"]
                ++ ["MATRIX_END"] ++ ["MATRIX_START"; "MATRIX_END"]) 0 (-1)
  = (Z.of_nat (length ["noise"; "MATRIX_START"; "9"]),
     Z.of_nat (length ["noise"; "MATRIX_START"; "9"]) + 1
     + Z.of_nat (length ["2"; "1 1"])).
Proof.
  apply (marker_selection ["noise"; "MATRIX_START"; "9"] ["2"; "1 1"]
           ["MATRIX_START"; "MATRIX_END"]);
    rewrite ?elem_of_cons, elem_of_nil; intros H; repeat destruct H as [H|H]; done.
Defined.

(** ** Reading back what the script prints *)

Lemma foldr_lines_app (ls : list string) (tail : string) :
  foldr (λ line rest, line +:+ nl +:+ rest) tail ls
  = foldr (λ line rest, line +:+ nl +:+ rest) EmptyString ls +:+ tail.
Proof.
  induction ls as [|line ls IH]; [done|]. cbn [foldr].
  by rewrite IH, !string_app_assoc.
Qed.

Lemma rstrip_app (a b : string) :
  rstrip b ≠ EmptyString → rstrip (a +:+ b) = a +:+ rstrip b.
Proof.
  intros Hb. induction a as [|c a IH]; [done|].
  rewrite !string_app_cons. cbn [rstrip]. rewrite IH.
  destruct (a +:+ rstrip b) as [|c' r] eqn:Hr; [|done].
  destruct a; [|done]. by destruct (rstrip b).
Qed.

Lemma split_on_lines_app (ls : list string) (tail : string) :
  Forall (λ line, contains "010" line = false) ls →
  split_on "010" (foldr (λ line rest, line +:+ nl +:+ rest) EmptyString ls +:+ tail)
  = ls ++ split_on "010" tail.
Proof.
  induction 1 as [|line ls Hline _ IH]; [done|]. cbn [foldr].
  by rewrite !string_app_assoc, split_on_line, IH.
Qed.

Lemma protocol_text_lines size rows :
  split_on "010" (strip (protocol_text size rows)) = protocol_lines size rows.
Proof.
  unfold protocol_text, protocol_lines.
  set (body := "MATRIX_START" :: pretty size :: (row_line <$> rows)).
  change (["MATRIX_START"; pretty size] ++ (row_line <$> rows) ++ ["MATRIX_END"])
    with (body ++ ["MATRIX_END"]).
  rewrite foldr_app. cbn [foldr]. rewrite foldr_lines_app.
  assert (strip (foldr (λ line rest, line +:+ nl +:+ rest) EmptyString body
                 +:+ "MATRIX_END" +:+ nl +:+ EmptyString)
          = foldr (λ line rest, line +:+ nl +:+ rest) EmptyString body
            +:+ "MATRIX_END") as ->.
  { unfold strip.
    assert (∀ s : string, lstrip (String "M" s) = String "M" s) as Hl by done.
    subst body. cbn [foldr]. rewrite !string_app_assoc.
    change ("MATRIX_START" +:+ ?s) with (String "M" ("ATRIX_START" +:+ s)).
    rewrite Hl.
    change (String "M" ("ATRIX_START" +:+ ?s)) with ("MATRIX_START" +:+ s).
    rewrite <- !string_app_assoc.
    rewrite (string_app_assoc _ "MATRIX_END"), string_app_nil_r.
    rewrite rstrip_app by by vm_compute. f_equal. }
  rewrite split_on_lines_app; [done|].
  subst body. repeat constructor.
  - apply row_chars_line, pretty_row_chars.
  - apply Forall_fmap, Forall_forall. intros row _. apply row_chars_line, row_line_chars.
Qed.

Lemma protocol_markers size rows :
  scan_markers (protocol_lines size rows) 0 (-1)
  = (0, 2 + Z.of_nat (length rows)).
Proof.
  unfold protocol_lines.
  change (["MATRIX_START"; pretty size] ++ (row_line <$> rows) ++ ["MATRIX_END"])
    with ([] ++ "MATRIX_START" :: (pretty size :: (row_line <$> rows))
          ++ "MATRIX_END" :: []).
  rewrite scan_markers_before by apply not_elem_of_nil.
  rewrite scan_markers_block.
  - rewrite length_cons, length_fmap. f_equal. simpl. lia.
  - intros Hin. apply elem_of_cons in Hin as [Heq|Hin].
    + by destruct (row_chars_line (pretty size) (pretty_row_chars size)) as (_ & ? & _).
    + apply list_elem_of_fmap in Hin as (row & Heq & _).
      by destruct (row_chars_line (row_line row) (row_line_chars row)) as (_ & ? & _).
  - intros Hin. apply elem_of_cons in Hin as [Heq|Hin].
    + by destruct (row_chars_line (pretty size) (pretty_row_chars size)) as (_ & _ & ?).
    + apply list_elem_of_fmap in Hin as (row & Heq & _).
      by destruct (row_chars_line (row_line row) (row_line_chars row)) as (_ & _ & ?).
Qed.

(** The parser gives back the rows the text was printed from. *)
Lemma parse_protocol size rows w :
  (parse_output (protocol_text size rows) w).2 = Returned (Some rows).
Proof.
  pose proof (protocol_text_lines size rows) as Hlines.
  pose proof (protocol_markers size rows) as Hscan. rewrite <- Hlines in Hscan.
  destruct (parse_output_found (protocol_text size rows) w 0
              (2 + Z.of_nat (length rows)) Hscan) as (size_line & Hsize & Hvalue);
    [done | lia |].
  rewrite Hlines in Hsize, Hvalue. unfold protocol_lines in Hsize, Hvalue.
  injection Hsize as <-. rewrite py_int_pretty in Hvalue.
  replace (Z.to_nat (2 + Z.of_nat (length rows) - (0 + 2))) with (length rows)
    in Hvalue by lia.
  change (drop (Z.to_nat (0 + 2))
            (["MATRIX_START"; pretty size] ++ (row_line <$> rows) ++ ["MATRIX_END"]))
    with ((row_line <$> rows) ++ ["MATRIX_END"]) in Hvalue.
  rewrite take_app_length' in Hvalue by (by rewrite length_fmap).
  assert (mapM read_row (row_line <$> rows) = Some rows) as Hrows.
  { apply mapM_Some, Forall2_fmap_l, Forall_Forall2_diag, Forall_forall.
    intros row _. apply read_row_line. }
  rewrite Hrows in Hvalue.
  by destruct ((parse_output (protocol_text size rows) w).2) as [[m|]|e];
    simplify_eq.
Qed.

(** ** The matrix source, once more *)

Section MatrixSourceFrame.

Variable run_process :
  list string → gmap string FileData →
  gmap string FileData * outcome CompletedProcess.

(** The world in which the generator is started. *)
Local Abbreviation started text w :=
  (mkWorld (<[temp_script := TextFile LocaleEncoding (lua_script text)]> (files w))
     (writable w) (torn w) (removable w) (stdout w)).

(** What the cleanup leaves of the files [fs]: the script is removed
    where the removal is allowed. *)
Local Abbreviation swept w fs :=
  (if removable w temp_script then delete temp_script fs else fs).

Lemma parse_output_world out w :
  ∃ log, (parse_output out w).1
         = mkWorld (files w) (writable w) (torn w) (removable w) (stdout w ++ log).
Proof.
  unfold parse_output. destruct (scan_markers _ _ _) as [s e].
  destruct ((s =? -1) || (e =? -1)).
  - unfold mbind, Py_bind, print, mret, Py_ret. simpl. by eexists.
  - unfold mbind, Py_bind, print, mret, Py_ret, lift. simpl.
    destruct (parse_size _ _); simpl; [destruct (parse_rows _ _ _); simpl|];
      first [by eexists | exists []; rewrite app_nil_r; by destruct w].
Qed.

(** The whole call, for a process that completes. *)
Lemma lua_qr_to_matrix_completed text ec_level w fs result :
  writable w temp_script = true →
  run_process ["lua"; temp_script] (files (started text w)) = (fs, Returned result) →
  lua_qr_to_matrix run_process text ec_level w =
  if negb (returncode result =? 0) then
    (mkWorld (swept w fs) (writable w) (torn w) (removable w)
       (stdout w ++ ["Lua error: " +:+ proc_stderr result]), Returned None)
  else
    let p := parse_output (proc_stdout result)
               (mkWorld fs (writable w) (torn w) (removable w) (stdout w)) in
    match p.2 with
    | Returned matrix =>
        (mkWorld (swept w fs) (writable w) (torn w) (removable w) (stdout p.1),
         Returned matrix)
    | Raised e =>
        (mkWorld (swept w fs) (writable w) (torn w) (removable w)
           (stdout p.1 ++ ["Error generating matrix: " +:+ exn_msg e]), Returned None)
    end.
Proof.
  intros Hw Hrun. rewrite lua_qr_to_matrix_run, Hw.
  unfold try_finally, try_except, run_and_parse, subprocess_run.
  unfold mbind at 1, Py_bind. simpl in Hrun. simpl. rewrite Hrun.
  destruct (negb (returncode result =? 0)).
  - unfold mbind, Py_bind, print, mret, Py_ret. simpl.
    by rewrite remove_script_run.
  - cbv zeta.
    destruct (parse_output_world (proc_stdout result)
                (mkWorld fs (writable w) (torn w) (removable w) (stdout w))) as [log Hworld].
    destruct (parse_output _ _) as [w1 [matrix|e]]; simpl in Hworld; subst w1; simpl.
    + by rewrite remove_script_run.
    + unfold mbind, Py_bind, print, mret, Py_ret. simpl.
      by rewrite remove_script_run.
Qed.

(** The whole call, for a process that cannot be started. *)
Lemma lua_qr_to_matrix_not_started text ec_level w fs e :
  writable w temp_script = true →
  run_process ["lua"; temp_script] (files (started text w)) = (fs, Raised e) →
  lua_qr_to_matrix run_process text ec_level w
  = (mkWorld (swept w fs) (writable w) (torn w) (removable w)
       (stdout w ++ ["Error generating matrix: " +:+ exn_msg e]), Returned None).
Proof.
  intros Hw Hrun. rewrite lua_qr_to_matrix_run, Hw.
  unfold try_finally, try_except, run_and_parse, subprocess_run.
  unfold mbind at 1, Py_bind. simpl in Hrun. simpl. rewrite Hrun.
  unfold mbind, Py_bind, print, mret, Py_ret. simpl.
  by rewrite remove_script_run.
Qed.

(** X6. What the script prints is read back exactly: for every declared
    size and every list of rows, the text made of the start marker, the
    size, the rows in decimal separated by spaces, and the end marker,
    each on its line, gives those rows as the matrix. *)
Theorem protocol_round_trip text ec_level w fs size rows err :
  writable w temp_script = true →
  run_process ["lua"; temp_script] (files (started text w))
  = (fs, Returned (mkCompleted 0 (protocol_text size rows) err)) →
  (lua_qr_to_matrix run_process text ec_level w).2 = Returned (Some rows) ∧
  (parse_output (protocol_text size rows) w).2 = Returned (Some rows).
Proof.
  intros Hw Hrun.
  rewrite (lua_qr_to_matrix_completed text ec_level w fs _ Hw Hrun). simpl.
  rewrite !parse_protocol. done.
Qed.

(** X7. How a failing generator shows: a non-zero exit status gives
    [None] and the line [Lua error:] with the process's error output,
    whatever the process printed (a well-formed matrix included); a
    process that cannot be started gives [None] and the line [Error
    generating matrix:] with the exception's message.  Either way no
    exception leaves the call, and the files are the ones the process
    left, without the script where its removal is allowed. *)
Theorem generator_failures text ec_level w fs :
  writable w temp_script = true →
  (∀ result,
     run_process ["lua"; temp_script] (files (started text w)) = (fs, Returned result) →
     returncode result ≠ 0 →
     lua_qr_to_matrix run_process text ec_level w
     = (mkWorld (swept w fs) (writable w) (torn w) (removable w)
          (stdout w ++ ["Lua error: " +:+ proc_stderr result]), Returned None)) ∧
  (∀ e,
     run_process ["lua"; temp_script] (files (started text w)) = (fs, Raised e) →
     lua_qr_to_matrix run_process text ec_level w
     = (mkWorld (swept w fs) (writable w) (torn w) (removable w)
          (stdout w ++ ["Error generating matrix: " +:+ exn_msg e]), Returned None)).
Proof.
  intros Hw. split.
  - intros result Hrun Hcode.
    rewrite (lua_qr_to_matrix_completed text ec_level w fs _ Hw Hrun).
    by destruct (Z.eqb_spec (returncode result) 0).
  - intros e Hrun. by apply lua_qr_to_matrix_not_started.
Qed.

End MatrixSourceFrame.

Lemma protocol_round_trip_witness :
  (lua_qr_to_matrix (prints (protocol_text 3 checker3)) "hi" None fresh_world).2
  = Returned (Some checker3) ∧
  (parse_output (protocol_text 3 checker3) fresh_world).2 = Returned (Some checker3).
Proof.
  apply (protocol_round_trip (prints (protocol_text 3 checker3)) "hi" None fresh_world
           (<[temp_script := TextFile LocaleEncoding (lua_script "hi")]> ∅)
           3 checker3 EmptyString); reflexivity.
Defined.

Lemma generator_failures_witness :
  lua_qr_to_matrix fails "hi" None fresh_world
  = (mkWorld
       (delete temp_script
          (<[temp_script := TextFile LocaleEncoding (lua_script "hi")]> ∅))
       (writable fresh_world) (torn fresh_world) (removable fresh_world)
       (stdout fresh_world ++ ["Lua error: lua: error"]), Returned None) ∧
  lua_qr_to_matrix missing_interpreter "hi" None sticky_world
  = (mkWorld
       (<[temp_script := TextFile LocaleEncoding (lua_script "hi")]> ∅)
       (writable sticky_world) (torn sticky_world) (removable sticky_world)
       (stdout sticky_world
        ++ ["Error generating matrix: No such file or directory: 'lua'"]),
     Returned None).
Proof.
  destruct (generator_failures fails "hi" None fresh_world
              (<[temp_script := TextFile LocaleEncoding (lua_script "hi")]> ∅)
              eq_refl) as [Hcode _].
  destruct (generator_failures missing_interpreter "hi" None sticky_world
              (<[temp_script := TextFile LocaleEncoding (lua_script "hi")]> ∅)
              eq_refl) as [_ Hraise].
  split.
  - apply (Hcode (mkCompleted 1 EmptyString "lua: error")); [reflexivity | done].
  - apply (Hraise (Exn "FileNotFoundError" "No such file or directory: 'lua'")).
    reflexivity.
Defined.

(** ** Running a sequence *)

Lemma bind_run {A B : Type} (m : Py A) (f : A → Py B) w :
  (m ≫= f) w = match m w with
               | (w', Returned a) => f a w'
               | (w', Raised e) => (w', Raised e)
               end.
Proof. done. Qed.

Lemma print_run s w :
  print s w
  = (mkWorld (files w) (writable w) (torn w) (removable w) (stdout w ++ [s]),
     Returned ()).
Proof. done. Qed.

Lemma mret_run {A : Type} (a : A) (w : World) :
  (mret a : Py A) w = (w, Returned a).
Proof. done. Qed.

Ltac run :=
  repeat first [rewrite bind_run | rewrite print_run | rewrite mret_run
               | progress (cbv beta iota)
               | progress (cbn [files writable torn removable stdout])].

(** ** The command-line tool of [matrix_to_image.py] *)

Section GeneratorTool.

Variable run_process :
  list string → gmap string FileData →
  gmap string FileData * outcome CompletedProcess.

Local Abbreviation started text w :=
  (mkWorld (<[temp_script := TextFile LocaleEncoding (lua_script text)]> (files w))
     (writable w) (torn w) (removable w) (stdout w)).

(** What the cleanup leaves of the files [fs]: the script is removed
    where the removal is allowed. *)
Local Abbreviation swept w fs :=
  (if removable w temp_script then delete temp_script fs else fs).

Lemma swept_other w (fs : gmap string FileData) path :
  path ≠ temp_script → swept w fs !! path = fs !! path.
Proof.
  intros Hne. destruct (removable w temp_script); [|done].
  by apply lookup_delete_ne.
Qed.

(** X8. The footprint of a generation call that has written its script:
    it always returns, and when it is over the file system is the one
    the generator process left, without the script file where the
    removal is allowed, and exactly as the process left it where the
    removal is refused.  The call itself adds and changes nothing else,
    whatever the process did and whether or not its output could be
    parsed. *)
Theorem generation_footprint text ec_level w fs o :
  writable w temp_script = true →
  run_process ["lua"; temp_script] (files (started text w)) = (fs, o) →
  let r := lua_qr_to_matrix run_process text ec_level w in
  files r.1 = swept w fs ∧ writable r.1 = writable w ∧
  ∃ matrix, r.2 = Returned matrix.
Proof.
  intros Hw Hrun r. subst r. destruct o as [result|e].
  - rewrite (lua_qr_to_matrix_completed run_process text ec_level w fs _ Hw Hrun).
    destruct (negb (returncode result =? 0)); [simpl; by eauto|]. cbv zeta.
    destruct (parse_output _ _).2; simpl; by eauto.
  - rewrite (lua_qr_to_matrix_not_started run_process text ec_level w fs e Hw Hrun).
    simpl. by eauto.
Qed.

Lemma generate_ok text ec_level w fs size rows err :
  writable w temp_script = true →
  run_process ["lua"; temp_script] (files (started text w))
  = (fs, Returned (mkCompleted 0 (protocol_text size rows) err)) →
  ∃ log, lua_qr_to_matrix run_process text ec_level w
         = (mkWorld (swept w fs) (writable w) (torn w) (removable w)
              (stdout w ++ log),
            Returned (Some rows)).
Proof.
  intros Hw Hrun.
  rewrite (lua_qr_to_matrix_completed run_process text ec_level w fs _ Hw Hrun).
  simpl. rewrite parse_protocol.
  destruct (parse_output_world (protocol_text size rows)
              (mkWorld fs (writable w) (torn w) (removable w) (stdout w))) as [log ->].
  by exists log.
Qed.

(** The name of the image [main] writes. *)
Local Abbreviation output_file args :=
  (match Generator.output args with
   | Some name => if truthy name then name else "test.png"
   | None => "test.png"
   end).

(** X9. The tool from end to end: when the generator prints a matrix
    with at least one row in the protocol and the image can be saved
    under the output name ([test.png] when none is given; a name other
    than the script's), [main] returns [0], and the file system is the
    one the generation call left (the files of the generator process,
    without the script where its removal is allowed) with the rendering
    of exactly those rows, under the module size and border of the
    command line, stored under the output name. *)
Theorem main_end_to_end args w fs declared rows err img :
  Generator.test args = false →
  writable w temp_script = true →
  run_process ["lua"; temp_script] (files (started (Generator.text args) w))
  = (fs, Returned (mkCompleted 0 (protocol_text declared rows) err)) →
  rows ≠ [] →
  render rows (Generator.size args) (Generator.border args) = Returned img →
  output_file args ≠ temp_script →
  writable w (output_file args) = true →
  let r := Generator.main run_process args w in
  r.2 = Returned 0 ∧
  files r.1 = <[output_file args := ImageFile img]> (swept w fs).
Proof.
  intros Htest Hw Hrun Hne Hrender _ Hout r.
  assert (∃ out, r = (mkWorld (<[output_file args := ImageFile img]> (swept w fs))
                        (writable w) (torn w) (removable w) out,
                      Returned 0)) as [out ->]; [|done].
  subst r. unfold Generator.main. rewrite Htest.
  destruct (generate_ok _ None w fs declared rows err Hw Hrun) as [log Hgen].
  unfold mbind at 1, Py_bind. rewrite Hgen.
  destruct rows as [|row rows]; [done|]. cbn [matrix_given].
  unfold mbind, Py_bind. rewrite matrix_to_image_run by done. cbv zeta.
  rewrite Hrender. cbn [writable]. rewrite Hout. by eexists.
Qed.

(** X10. When the tool gives up: [main] returns [1] and writes no image
    (every file but the script is as the generator process left it)
    when the generator exits with a non-zero status, and also when it
    prints a well-formed block without rows (the empty matrix counts as
    no matrix).  When the script cannot be written, the error escapes
    from [main], and no file but the script is touched. *)
Theorem main_gives_up args w fs :
  Generator.test args = false →
  let r := Generator.main run_process args w in
  (∀ result,
     writable w temp_script = true →
     run_process ["lua"; temp_script] (files (started (Generator.text args) w))
     = (fs, Returned result) →
     returncode result ≠ 0 →
     r.2 = Returned 1 ∧
     ∀ path, path ≠ temp_script → files r.1 !! path = fs !! path) ∧
  (∀ declared err,
     writable w temp_script = true →
     run_process ["lua"; temp_script] (files (started (Generator.text args) w))
     = (fs, Returned (mkCompleted 0 (protocol_text declared []) err)) →
     r.2 = Returned 1 ∧
     ∀ path, path ≠ temp_script → files r.1 !! path = fs !! path) ∧
  (writable w temp_script = false →
   r.2 = Raised (OSError temp_script) ∧
   ∀ path, path ≠ temp_script → files r.1 !! path = files w !! path).
Proof.
  intros Htest r. split; [|split].
  - intros result Hw Hrun Hcode.
    assert (r = (mkWorld (swept w fs) (writable w) (torn w) (removable w)
                   (stdout w ++ ["Lua error: " +:+ proc_stderr result]),
                 Returned 1)) as ->.
    { subst r. unfold Generator.main. rewrite Htest. unfold mbind at 1, Py_bind.
      rewrite (lua_qr_to_matrix_completed run_process _ None w fs _ Hw Hrun).
      by destruct (Z.eqb_spec (returncode result) 0). }
    split; [done|]. intros path Hpath. by apply swept_other.
  - intros declared err Hw Hrun.
    destruct (generate_ok _ None w fs declared [] err Hw Hrun) as [log Hgen].
    assert (r = (mkWorld (swept w fs) (writable w) (torn w) (removable w)
                   (stdout w ++ log),
                 Returned 1)) as ->.
    { subst r. unfold Generator.main. rewrite Htest. unfold mbind at 1, Py_bind.
      by rewrite Hgen. }
    split; [done|]. intros path Hpath. by apply swept_other.
  - intros Hw.
    assert (r = match torn w temp_script with
                | Some n =>
                    (mkWorld (<[temp_script := TextFile LocaleEncoding
                                  (String.substring 0 n
                                     (lua_script (Generator.text args)))]> (files w))
                       (writable w) (torn w) (removable w) (stdout w),
                     Raised (OSError temp_script))
                | None => (w, Raised (OSError temp_script))
                end) as ->.
    { subst r. unfold Generator.main. rewrite Htest.
      unfold mbind at 1, Py_bind. rewrite lua_qr_to_matrix_run, Hw.
      by destruct (torn w temp_script). }
    destruct (torn w temp_script) as [n|]; simpl; (split; [done|]);
      intros path Hpath; [by apply lookup_insert_ne | done].
Qed.

(** X11. The self-test of the tool ([--test]): it renders the matrix
    into [qr_test.png] with modules of 12 pixels and a border of 4, then
    starts the decoder on the file named after the text ([qr_] + the
    text with spaces replaced by underscores + [.png]), and passes
    exactly when the decoder's output does not contain the sentence [No
    QR codes were successfully decoded]; [main] then returns [0], and
    [1] otherwise.  A decoder process that cannot be started makes the
    exception escape. *)
Theorem self_test_verdict args w fs declared rows err img fs' o :
  Generator.test args = true →
  writable w temp_script = true →
  run_process ["lua"; temp_script] (files (started (Generator.text args) w))
  = (fs, Returned (mkCompleted 0 (protocol_text declared rows) err)) →
  rows ≠ [] →
  render rows 12 4 = Returned img →
  writable w "qr_test.png" = true →
  run_process ["python"; "qr_decoder_opencv.py";
               Generator.decoded_name (Generator.text args)]
    (<["qr_test.png" := ImageFile img]> (swept w fs)) = (fs', o) →
  let r := Generator.main run_process args w in
  files r.1 = fs' ∧
  match o with
  | Returned result =>
      r.2 = Returned
              (if occurs_in "No QR codes were successfully decoded"
                    (proc_stdout result) then 1 else 0)
  | Raised e => r.2 = Raised e
  end.
Proof.
  intros Htest Hw Hrun Hne Hrender Hout Hdecode r.
  assert (∃ out, r = (mkWorld fs' (writable w) (torn w) (removable w) out,
                      match o with
                      | Returned result =>
                          Returned
                            (if occurs_in "No QR codes were successfully decoded"
                                  (proc_stdout result) then 1 else 0)
                      | Raised e => Raised e
                      end)) as [out ->]; [|by destruct o].
  subst r.
  unfold Generator.main, Generator.test_qr_generation. rewrite Htest. run.
  destruct (generate_ok (Generator.text args) None
              (mkWorld (files w) (writable w) (torn w) (removable w)
                 ((stdout w ++ ["Testing QR generation for: '"
                                +:+ Generator.text args +:+ "'"])
                  ++ [repeat_str "=" 50]))
              fs declared rows err Hw Hrun) as [log Hgen].
  cbn [files writable torn removable stdout] in Hgen.
  rewrite Hgen. destruct rows as [|row rows]; [done|]. cbn [matrix_given]. run.
  rewrite matrix_to_image_run by done. cbv zeta.
  rewrite Hrender. cbn [writable]. rewrite Hout. cbn [negb]. run.
  unfold subprocess_run. cbn [files]. rewrite Hdecode.
  destruct o as [result|e]; [|by eexists]. run. cbn [files writable torn removable stdout].
  destruct (occurs_in _ _); by eexists.
Qed.

End GeneratorTool.

Lemma generation_footprint_witness :
  (let r := lua_qr_to_matrix fails "hi" None fresh_world in
   files r.1 = delete temp_script (scripted "hi") ∧
   writable r.1 = writable fresh_world ∧
   ∃ matrix, r.2 = Returned matrix) ∧
  (let r := lua_qr_to_matrix fails "hi" None sticky_world in
   files r.1 = scripted "hi" ∧
   writable r.1 = writable sticky_world ∧
   ∃ matrix, r.2 = Returned matrix).
Proof.
  split.
  - apply (generation_footprint fails "hi" None fresh_world (scripted "hi")
             (Returned (mkCompleted 1 EmptyString "lua: error"))); reflexivity.
  - apply (generation_footprint fails "hi" None sticky_world (scripted "hi")
             (Returned (mkCompleted 1 EmptyString "lua: error"))); reflexivity.
Defined.

Lemma main_end_to_end_witness :
  ∃ img,
    render checker3 1 0 = Returned img ∧
    let r := Generator.main (tool_process EmptyString) tool_args fresh_world in
    r.2 = Returned 0 ∧
    files r.1 = <["out.png" := ImageFile img]> (delete temp_script (scripted "hi")).
Proof.
  destruct (render_spec checker3 1 0) as (img & Hrender & _);
    [exact (square_wide _ checker3_square) | lia | lia |].
  exists img. split; [done|].
  apply (main_end_to_end (tool_process EmptyString) tool_args fresh_world
           (scripted "hi") 3 checker3 EmptyString img); done.
Defined.

Lemma main_gives_up_witness :
  (let r := Generator.main fails tool_args fresh_world in
   r.2 = Returned 1 ∧
   ∀ path, path ≠ temp_script → files r.1 !! path = scripted "hi" !! path) ∧
  (let r := Generator.main fails tool_args full_world in
   r.2 = Raised (OSError temp_script) ∧
   ∀ path, path ≠ temp_script → files r.1 !! path = files full_world !! path).
Proof.
  split.
  - apply (proj1 (main_gives_up fails tool_args fresh_world (scripted "hi") eq_refl)
             (mkCompleted 1 EmptyString "lua: error")); done.
  - apply (proj2 (proj2 (main_gives_up fails tool_args full_world (scripted "hi")
                           eq_refl))); reflexivity.
Defined.

Lemma self_test_verdict_witness :
  (Generator.main (tool_process "Text: HELLO") self_test_args fresh_world).2
  = Returned 0 ∧
  (Generator.main (tool_process "No QR codes were successfully decoded.")
     self_test_args fresh_world).2
  = Returned 1.
Proof.
  destruct (render_spec checker3 12 4) as (img & Hrender & _);
    [exact (square_wide _ checker3_square) | lia | lia |].
  split.
  - apply (self_test_verdict (tool_process "Text: HELLO") self_test_args fresh_world
             (scripted "a b") 3 checker3 EmptyString img
             (<["qr_test.png" := ImageFile img]> (delete temp_script (scripted "a b")))
             (Returned (mkCompleted 0 "Text: HELLO" EmptyString))); done.
  - apply (self_test_verdict (tool_process "No QR codes were successfully decoded.")
             self_test_args fresh_world
             (scripted "a b") 3 checker3 EmptyString img
             (<["qr_test.png" := ImageFile img]> (delete temp_script (scripted "a b")))
             (Returned (mkCompleted 0 "No QR codes were successfully decoded."
                          EmptyString))); done.
Defined.

(** ** The decoder, once more *)

Section DecoderMore.

Context {libs : Libraries}.

Local Abbreviation printed w log :=
  (mkWorld (files w) (writable w) (torn w) (removable w) (stdout w ++ log)).

(** X12. What [decode_qr_image] gives when the detector finds a text:
    one entry, with the text, the type [QRCODE] and the corner points,
    and nothing printed.  And how it swallows the library's exceptions:
    the empty list, and one line with the path and the message. *)
Theorem decode_one_image image_path w :
  (∀ image text pts,
     cv2_imread image_path (files w) = Returned (Some image) →
     detectAndDecode image = Returned (text, pts) → text ≠ EmptyString →
     decode_qr_image image_path w = (w, Returned [mkResult text "QRCODE" pts])) ∧
  (∀ e,
     cv2_imread image_path (files w) = Raised e →
     decode_qr_image image_path w
     = (printed w ["Error processing " +:+ image_path +:+ ": " +:+ exn_msg e],
        Returned [])) ∧
  (∀ image e,
     cv2_imread image_path (files w) = Returned (Some image) →
     detectAndDecode image = Raised e →
     decode_qr_image image_path w
     = (printed w ["Error processing " +:+ image_path +:+ ": " +:+ exn_msg e],
        Returned [])).
Proof.
  unfold decode_qr_image, try_except, read_fs.
  unfold mbind, Py_bind, mret, Py_ret, print, lift. simpl.
  split; [|split].
  - intros image text pts -> Hdetect Htext. simpl. rewrite Hdetect. simpl.
    destruct text; [done|]. by destruct w.
  - by intros e ->.
  - intros image e -> Hdetect. simpl. by rewrite Hdetect.
Qed.

(** X13. [decode_qr_simple] returns the detected text, and [None] in
    every other case; it never returns the empty string, never raises
    and leaves the files alone. *)
Theorem simple_is_detected image_path w :
  let r := decode_qr_simple image_path w in
  r.2 = Returned (detected (files w) image_path) ∧
  r.2 ≠ Returned (Some EmptyString) ∧
  files r.1 = files w.
Proof.
  intros r. subst r.
  destruct (decode_qr_image_run image_path w) as (log & results & Hrun & Hdata & Hlen).
  unfold decode_qr_simple. rewrite bind_run, Hrun.
  assert (detected (files w) image_path ≠ Some EmptyString) as Hne.
  { unfold detected. destruct (cv2_imread _ _) as [[image|]|]; try done.
    destruct (detectAndDecode image) as [[text pts]|]; [|done].
    by destruct text. }
  destruct (detected (files w) image_path) as [text|] eqn:Hdet;
    destruct results as [|result results]; simplify_eq/=; try done.
  repeat split; try done. congruence.
Qed.

(** X14. The batch decoder and the files: without an output file [main]
    never raises and changes no file; with one, it changes no file but
    that one. *)
Theorem batch_footprint args w :
  (output_requested args = None →
   files (main args w).1 = files w ∧ ∃ status, (main args w).2 = Returned status) ∧
  (∀ path other,
     output_requested args = Some path → other ≠ path →
     files (main args w).1 !! other = files w !! other).
Proof.
  pose proof (main_run args w) as Hrun. cbv zeta in Hrun.
  destruct (image_files (files w) (images args)) as [|p0 paths0].
  - rewrite Hrun. simpl. split; [by eauto|]. done.
  - destruct Hrun as (log & _ & _ & ->). split.
    + intros ->. simpl. by eauto.
    + intros path other -> Hne.
      destruct (writable w path); simpl; [by apply lookup_insert_ne|].
      destruct (torn w path); [by apply lookup_insert_ne | done].
Qed.

(** X15. [--verbose] changes what is printed and nothing else: the
    value [main] returns (or the error it raises) and the file system
    it leaves are the same with and without it. *)
Theorem verbose_only_prints args w :
  (main args w).2 = (main (toggle_verbose args) w).2 ∧
  files (main args w).1 = files (main (toggle_verbose args) w).1.
Proof.
  pose proof (main_run args w) as Hrun.
  pose proof (main_run (toggle_verbose args) w) as Hrun'.
  cbv zeta in Hrun, Hrun'.
  change (images (toggle_verbose args)) with (images args) in Hrun'.
  change (output_requested (toggle_verbose args)) with (output_requested args) in Hrun'.
  destruct (image_files (files w) (images args)) as [|p0 paths0].
  - by rewrite Hrun, Hrun'.
  - destruct Hrun as (log & _ & _ & ->). destruct Hrun' as (log' & _ & _ & ->).
    destruct (output_requested args) as [path|]; [destruct (writable w path)|]; done.
Qed.

(** X16. A batch in which nothing decodes still writes the output file
    it was asked for, empty, and then fails with status [1]. *)
Theorem empty_output_file args w path :
  image_files (files w) (images args) ≠ [] →
  payloads (files w) (image_files (files w) (images args)) = [] →
  output_requested args = Some path → writable w path = true →
  let r := run_main args w in
  r.2 = 1 ∧ files r.1 !! path = Some (TextFile Utf8 EmptyString).
Proof.
  intros Hne Hnone Hout Hw r. subst r. unfold run_main.
  pose proof (main_run args w) as Hrun. cbv zeta in Hrun.
  destruct (image_files (files w) (images args)) as [|p0 paths0]; [done|].
  destruct Hrun as (log & _ & _ & ->). rewrite Hout, Hw, Hnone. simpl.
  split; [done|]. apply lookup_insert_eq.
Qed.

Lemma image_files_plain fs (patterns : list string) :
  Forall (λ p, contains "*" p = false ∧ contains "?" p = false) patterns →
  image_files fs patterns = patterns.
Proof.
  induction 1 as [|p patterns [H1 H2] _ IH]; [done|].
  unfold image_files in *. cbn [mbind list_bind]. rewrite H1, H2. simpl.
  by rewrite IH.
Qed.

(** X17. The rasterizer and the decoder together: after [matrix_to_image]
    has saved an image under a name without wildcard characters, the
    batch decoder run on that name finds the file, and it exits with
    status [0] exactly when the detector reads a text from it. *)
Theorem render_then_decode matrix filename module_size border w img verbose :
  matrix ≠ [] → render matrix module_size border = Returned img →
  writable w filename = true →
  contains "*" filename = false → contains "?" filename = false →
  let w1 := (matrix_to_image matrix filename module_size border w).1 in
  let r := run_main (mkArgs [filename] None verbose) w1 in
  files w1 !! filename = Some (ImageFile img) ∧
  payloads (files w1) [filename] = option_list (detected (files w1) filename) ∧
  (r.2 = 0 ↔ is_Some (detected (files w1) filename)).
Proof.
  intros Hne Hrender Hw Hstar Hquest w1 r.
  destruct (matrix_to_image_saves matrix filename module_size border w img
              Hne Hrender Hw) as [_ Hfile]. fold w1 in Hfile.
  assert (payloads (files w1) [filename]
          = option_list (detected (files w1) filename)) as Hpay.
  { unfold payloads, payload. simpl. rewrite Hfile.
    rewrite bool_decide_eq_true_2 by eauto.
    by destruct (detected (files w1) filename). }
  split; [done|]. split; [done|].
  subst r. unfold run_main.
  pose proof (main_run (mkArgs [filename] None verbose) w1) as Hrun.
  cbv zeta in Hrun. cbn [images] in Hrun.
  rewrite image_files_plain in Hrun by (by repeat constructor).
  destruct Hrun as (log & _ & _ & ->). rewrite Hpay. simpl.
  destruct (detected (files w1) filename) as [text|]; simpl.
  - split; [by eauto | done].
  - split; [done | by intros [? ?]].
Qed.

End DecoderMore.

Lemma decode_one_image_witness :
  @decode_qr_image stub "hello.png" gallery
  = (gallery, Returned [@mkResult stub "HELLO" "QRCODE"
                          (Some [(0, 0); (9, 0); (9, 9); (0, 9)])]) ∧
  @decode_qr_image faulty "broken.png" gallery
  = (mkWorld (files gallery) (writable gallery) (torn gallery) (removable gallery)
       (stdout gallery ++ ["Error processing broken.png: bad header"]),
     Returned []) ∧
  @decode_qr_image faulty "torn.png" gallery
  = (mkWorld (files gallery) (writable gallery) (torn gallery) (removable gallery)
       (stdout gallery ++ ["Error processing torn.png: out of memory"]),
     Returned []).
Proof.
  split; [|split].
  - apply (proj1 (@decode_one_image stub "hello.png" gallery) "hello.png");
      [reflexivity | reflexivity | discriminate].
  - apply (proj1 (proj2 (@decode_one_image faulty "broken.png" gallery))
             (Exn "cv2.error" "bad header")).
    reflexivity.
  - apply (proj2 (proj2 (@decode_one_image faulty "torn.png" gallery))
             "torn.png" (Exn "cv2.error" "out of memory"));
      reflexivity.
Defined.

Lemma batch_footprint_witness :
  (files (@main stub batch_with_gap gallery).1 = files gallery ∧
   ∃ status, (@main stub batch_with_gap gallery).2 = Returned status) ∧
  files (@main stub batch_saved gallery).1 !! "hello.png"
  = files gallery !! "hello.png".
Proof.
  split.
  - apply (proj1 (@batch_footprint stub batch_with_gap gallery)). reflexivity.
  - apply (proj2 (@batch_footprint stub batch_saved gallery) "out.txt" "hello.png");
      [reflexivity | discriminate].
Defined.

Lemma empty_output_file_witness :
  let r := @run_main stub batch_blank gallery in
  r.2 = 1 ∧ files r.1 !! "out.txt" = Some (TextFile Utf8 EmptyString).
Proof.
  apply (@empty_output_file stub batch_blank gallery "out.txt");
    [discriminate | reflexivity | reflexivity | reflexivity].
Defined.

Lemma render_then_decode_witness :
  ∃ img,
    render checker3 10 1 = Returned img ∧
    let w1 := (matrix_to_image checker3 "hello.png" 10 1 fresh_world).1 in
    let r := @run_main stub (mkArgs ["hello.png"] None false) w1 in
    files w1 !! "hello.png" = Some (ImageFile img) ∧
    @payloads stub (files w1) ["hello.png"]
    = option_list (@detected stub (files w1) "hello.png") ∧
    (r.2 = 0 ↔ is_Some (@detected stub (files w1) "hello.png")).
Proof.
  eexists. split; [vm_compute; reflexivity|].
  apply (@render_then_decode stub checker3 "hello.png" 10 1 fresh_world _ false);
    [discriminate | vm_compute; reflexivity | reflexivity | reflexivity | reflexivity].
Defined.

Section DecodeManyProperties.

Context {libs : Libraries}.
Variable points_len : Points → nat.

Local Abbreviation printed w log :=
  (mkWorld (files w) (writable w) (torn w) (removable w) (stdout w ++ log)).

Lemma show_result_run entry w :
  ∃ log, show_result points_len entry () w = (printed w log, Returned ()) ∧
         ("  Data: " +:+ data entry.2) ∈ log.
Proof.
  destruct entry as [i result]. unfold show_result, when. run.
  destruct (points result) as [pts|]; [destruct (points_nonempty pts)|]; run;
    rewrite <- ?app_assoc; (eexists; split; [reflexivity|]);
    cbn [data snd]; rewrite !elem_of_app, !elem_of_cons; auto 10.
Qed.

Lemma show_results_run (results : list DecodeResult) :
  ∀ (g : nat → nat) w,
  ∃ log,
    for_each_py (imap (λ i result, (g i, result)) results)
      (show_result points_len) () w
    = (printed w log, Returned ()) ∧
    ∀ text, text ∈ data <$> results → ("  Data: " +:+ text) ∈ log.
Proof.
  induction results as [|result results IH]; intros g w.
  - exists []. simpl. rewrite app_nil_r.
    split; [by destruct w | by intros text ?%elem_of_nil].
  - cbn [for_each_py imap fmap list_fmap].
    destruct (show_result_run (g 0%nat, result) w) as (log1 & Hrun1 & Hin1).
    destruct (IH (g ∘ S) (printed w log1)) as (log2 & Hrun2 & Hin2).
    exists (log1 ++ log2). split.
    + rewrite bind_run, Hrun1.
      cbn [files writable torn removable stdout] in Hrun2. rewrite <- app_assoc in Hrun2.
      exact Hrun2.
    + intros text [->|Hin]%elem_of_cons; apply elem_of_app; auto.
Qed.

Lemma show_path_run image_path w :
  ∃ log,
    show_path points_len image_path () w = (printed w log, Returned ()) ∧
    (files w !! image_path = None → log = ["File not found: " +:+ image_path]) ∧
    (is_Some (files w !! image_path) →
     (nl +:+ "--- Decoding: " +:+ image_path +:+ " ---") ∈ log) ∧
    (∀ text, payload (files w) image_path = Some text → ("  Data: " +:+ text) ∈ log).
Proof.
  unfold show_path, payload, os_path_exists, read_fs. rewrite bind_run.
  destruct (files w !! image_path) as [d|] eqn:Hfile.
  - rewrite bool_decide_eq_true_2 by eauto. cbn [negb]. run.
    destruct (decode_qr_image_run image_path
                (printed w [nl +:+ "--- Decoding: " +:+ image_path +:+ " ---"]))
      as (log1 & results & Hrun1 & Hdata & Hlen).
    cbn [files writable torn removable stdout] in Hrun1, Hdata. rewrite Hrun1.
    destruct results as [|result results].
    + destruct (detected (files w) image_path) as [text0|]; [done|]. run.
      rewrite <- !app_assoc. eexists. split; [reflexivity|].
      split; [done|]. split; [intros _; by left | done].
    + destruct (show_results_run (result :: results) id
                  (mkWorld (files w) (writable w) (torn w) (removable w)
                     ((stdout w ++ [nl +:+ "--- Decoding: " +:+ image_path +:+ " ---"])
                      ++ log1))) as (log2 & Hrun2 & Hin2).
      unfold id in Hrun2. cbv beta iota. rewrite Hrun2.
      cbn [files writable torn removable stdout]. rewrite <- !app_assoc.
      eexists. split; [reflexivity|]. split; [done|].
      split; [intros _; by left|].
      intros text Htext. rewrite Htext in Hdata.
      right. apply elem_of_app. right. apply Hin2. rewrite Hdata. simpl. by left.
  - rewrite bool_decide_eq_false_2 by (intros [? ?]; done). cbn [negb]. run.
    eexists. split; [reflexivity|]. split; [done|].
    split; [by intros [? ?] | done].
Qed.

(** X18. [decode_multiple_images] goes through every path: it prints
    [File not found] for each path that is missing and the header
    [--- Decoding: ... ---] for each path that is there, and the line
    [Data:] for every payload the batch yields; it never raises and
    changes no file. *)
Theorem decode_many paths :
  ∀ w,
  ∃ log,
    decode_multiple_images points_len paths w = (printed w log, Returned ()) ∧
    (∀ image_path, image_path ∈ paths → files w !! image_path = None →
                   ("File not found: " +:+ image_path) ∈ log) ∧
    (∀ image_path, image_path ∈ paths → is_Some (files w !! image_path) →
                   (nl +:+ "--- Decoding: " +:+ image_path +:+ " ---") ∈ log) ∧
    (∀ text, text ∈ payloads (files w) paths → ("  Data: " +:+ text) ∈ log).
Proof.
  unfold decode_multiple_images.
  induction paths as [|image_path paths IH]; intros w.
  - exists []. cbn [for_each_py]. rewrite mret_run, app_nil_r.
    split; [by destruct w|].
    repeat split; intros ? Hin; by apply elem_of_nil in Hin.
  - cbn [for_each_py].
    destruct (show_path_run image_path w) as (log1 & Hrun1 & Hmiss1 & Hhead1 & Htext1).
    destruct (IH (printed w log1)) as (log2 & Hrun2 & Hmiss2 & Hhead2 & Htext2).
    cbn [files writable torn removable stdout] in Hrun2, Hmiss2, Hhead2, Htext2.
    exists (log1 ++ log2). split; [|split; [|split]].
    + rewrite bind_run, Hrun1, Hrun2. by rewrite <- app_assoc.
    + intros p [->|Hin]%elem_of_cons Hnone; apply elem_of_app.
      * left. rewrite (Hmiss1 Hnone). by left.
      * right. by apply Hmiss2.
    + intros p [->|Hin]%elem_of_cons Hsome; apply elem_of_app; auto.
    + intros text Hin. apply elem_of_app. unfold payloads in Hin. simpl in Hin.
      destruct (payload (files w) image_path) as [text1|] eqn:Hp.
      * apply elem_of_cons in Hin as [->|Hin]; [left; by apply Htext1 | right; by apply Htext2].
      * right. by apply Htext2.
Qed.

End DecodeManyProperties.

Lemma decode_many_witness :
  ∃ log,
    @decode_multiple_images stub stub_points_len ["gone.png"; "hello.png"] gallery
    = (mkWorld (files gallery) (writable gallery) (torn gallery)
         (removable gallery) (stdout gallery ++ log),
       Returned ()) ∧
    "File not found: gone.png" ∈ log ∧
    (nl +:+ "--- Decoding: hello.png ---") ∈ log ∧
    "  Data: HELLO" ∈ log.
Proof.
  destruct (@decode_many stub stub_points_len ["gone.png"; "hello.png"] gallery)
    as (log & Hrun & Hmiss & Hhead & Htext).
  exists log. split; [exact Hrun|]. split; [|split].
  - apply (Hmiss "gone.png"); [by left | reflexivity].
  - apply (Hhead "hello.png"); [right; by left | by eexists].
  - apply (Htext "HELLO"). by left.
Defined.
